(** * Discord-Dedi-Bot: instance lifecycle orchestrator (src/index.js)

    A shallow embedding of the parts of [src/index.js] that manage cloud
    instances: the in-memory registry [instanceState], the self-destruct
    timer, the provider-access layer with self-protection, the provisioning
    pipeline's firewall loop, the status and destruction pollers, the timer
    sweep and the panel-render guard.

    JavaScript objects are association lists in insertion order, with the
    semantics of property assignment and object spread written out.  Provider
    and Discord calls are inputs (their responses) and outputs (a trace of
    the calls issued); one poller tick is one function call, rescheduling is
    an explicit outcome. *)

From Stdlib Require Import Ascii String List ZArith Bool Lia DecimalString DecimalN.
Import ListNotations.
Open Scope string_scope.
Open Scope Z_scope.
Set Warnings "-register-all".

(* ------------------------------------------------------------------ *)
(** ** JavaScript values *)

Inductive jsval : Type :=
| JUndef
| JNull
| JNaN
| JBool (b : bool)
| JNum (z : Z)
| JStr (s : string)
| JArr (l : list jsval)
| JObj (o : list (string * jsval)).

Definition obj := list (string * jsval).

(** JavaScript truthiness. *)
Definition truthy (v : jsval) : bool :=
  match v with
  | JUndef | JNull | JNaN => false
  | JBool b => b
  | JNum z => negb (Z.eqb z 0)
  | JStr s => negb (String.eqb s "")
  | JArr _ | JObj _ => true
  end.

(** [a || b] *)
Definition js_or (a b : jsval) : jsval := if truthy a then a else b.

(** [v === JStr s] *)
Definition js_is_str (v : jsval) (s : string) : bool :=
  match v with JStr s' => String.eqb s' s | _ => false end.

(** Strict equality on primitives; two objects are never compared by the
    code below, and distinct object literals are distinct references. *)
Definition js_strict_eq (a b : jsval) : bool :=
  match a, b with
  | JUndef, JUndef | JNull, JNull => true
  | JBool x, JBool y => Bool.eqb x y
  | JNum x, JNum y => Z.eqb x y
  | JStr x, JStr y => String.eqb x y
  | _, _ => false
  end.

(** Property read [o.k] (missing property is [undefined]). *)
Fixpoint obj_get (o : obj) (k : string) : jsval :=
  match o with
  | [] => JUndef
  | (k', v') :: t => if String.eqb k' k then v' else obj_get t k
  end.

(** Property assignment [o.k = v]: an existing key keeps its position. *)
Fixpoint obj_set (o : obj) (k : string) (v : jsval) : obj :=
  match o with
  | [] => [(k, v)]
  | (k', v') :: t => if String.eqb k' k then (k', v) :: t else (k', v') :: obj_set t k v
  end.

(** [{...a, ...b}] *)
Definition spread (a b : obj) : obj :=
  fold_left (fun acc kv => obj_set acc (fst kv) (snd kv)) b a.

(** Property read on an arbitrary value (primitives have no own fields). *)
Definition js_get (v : jsval) (k : string) : jsval :=
  match v with JObj o => obj_get o k | _ => JUndef end.

(** Property assignment on an arbitrary value (ignored on primitives). *)
Definition js_set_prop (v : jsval) (k : string) (x : jsval) : jsval :=
  match v with JObj o => JObj (obj_set o k x) | _ => v end.

(** Numeric [v + n]; a non-number operand gives NaN. *)
Definition js_add_num (v : jsval) (n : Z) : jsval :=
  match v with JNum z => JNum (z + n) | _ => JNaN end.

(** [arr.includes(JStr s)] *)
Definition js_includes_str (v : jsval) (s : string) : bool :=
  match v with JArr l => existsb (fun x => js_is_str x s) l | _ => false end.

(* ------------------------------------------------------------------ *)
(** ** Arrays *)

Fixpoint findIndex {A} (p : A -> bool) (l : list A) : option nat :=
  match l with
  | [] => None
  | x :: t => if p x then Some O else option_map S (findIndex p t)
  end.

Fixpoint find {A} (p : A -> bool) (l : list A) : option A :=
  match l with
  | [] => None
  | x :: t => if p x then Some x else find p t
  end.

(** [arr[n] = x] for an index in range. *)
Fixpoint replace_nth {A} (l : list A) (n : nat) (x : A) : list A :=
  match l, n with
  | [], _ => []
  | _ :: t, O => x :: t
  | y :: t, S n' => y :: replace_nth t n' x
  end.

(* ------------------------------------------------------------------ *)
(** ** The in-memory registry [instanceState] *)

Module InstanceState.

Definition registry := list obj.

Definition has_id (i : obj) (instanceId : string) : bool :=
  js_is_str (obj_get i "id") instanceId.

(** [trackInstance(instanceId, userId, username, status, metadata)];
    [nowISO] is [new Date().toISOString()]. *)
Definition instanceData (instanceId userId username : string) (status : jsval)
    (metadata : obj) (nowISO : string) : obj :=
  [("id", JStr instanceId);
   ("creator", JObj [("id", JStr userId); ("username", JStr username)]);
   ("createdAt", JStr nowISO);
   ("status", js_or status (JStr "creating"));
   ("ip", js_or (obj_get metadata "ip") JNull);
   ("name", js_or (obj_get metadata "name") (JStr (username ++ "'s Server")));
   ("lastUpdated", JStr nowISO)].

Definition trackInstance (instances : registry) (instanceId userId username : string)
    (status : jsval) (metadata : obj) (nowISO : string) : registry * obj :=
  let data := instanceData instanceId userId username status metadata nowISO in
  match findIndex (fun i => has_id i instanceId) instances with
  | Some n =>
      match nth_error instances n with
      | Some existing => (replace_nth instances n (spread existing data), data)
      | None => (instances, data)
      end
  | None => ((instances ++ [data])%list, data)
  end.

(** [updateInstance(instanceId, status, metadata)]:
    [{...existing, status, lastUpdated, ...metadata}]. *)
Definition updated (existing : obj) (status : jsval) (metadata : obj) (nowISO : string) : obj :=
  spread (obj_set (obj_set existing "status" status) "lastUpdated" (JStr nowISO)) metadata.

Definition updateInstance (instances : registry) (instanceId : string) (status : jsval)
    (metadata : obj) (nowISO : string) : registry * option obj :=
  match findIndex (fun i => has_id i instanceId) instances with
  | Some n =>
      match nth_error instances n with
      | Some existing =>
          let r := updated existing status metadata nowISO in
          (replace_nth instances n r, Some r)
      | None => (instances, None)
      end
  | None => (instances, None)
  end.

Definition is_active (i : obj) : bool :=
  negb (js_is_str (obj_get i "status") "terminated") &&
  negb (js_is_str (obj_get i "status") "destroyed").

Definition getActiveInstances (instances : registry) : registry :=
  filter is_active instances.

Definition getInstance (instances : registry) (instanceId : string) : option obj :=
  find (fun i => has_id i instanceId) instances.

End InstanceState.

Import InstanceState.

(* ------------------------------------------------------------------ *)
(** ** Self-destruct timer *)

(** [parseInt(process.env.X) || 180]; [None] is an unset or non-numeric
    variable (NaN). *)
Definition minutes_config (env : option Z) : Z :=
  match env with
  | Some n => if Z.eqb n 0 then 180 else n
  | None => 180
  end.

Definition new_timer (now initialMinutes : Z) : jsval :=
  JObj [("expiresAt", JNum (now + initialMinutes * 60 * 1000));
        ("initialDuration", JNum (initialMinutes * 60 * 1000));
        ("extendedCount", JNum 0);
        ("warningsSent", JArr [])].

(** [initializeSelfDestructTimer(instanceId)]; [now] is [Date.now()]. *)
Definition initializeSelfDestructTimer (instances : registry) (instanceId : string)
    (initialMinutes now : Z) (nowISO : string) : registry :=
  match InstanceState.getInstance instances instanceId with
  | None => instances
  | Some trackedInstance =>
      if truthy (obj_get trackedInstance "selfDestructTimer") then instances
      else fst (updateInstance instances instanceId (obj_get trackedInstance "status")
                  [("selfDestructTimer", new_timer now initialMinutes)] nowISO)
  end.

Inductive CoinResult : Type :=
| NoActiveTimer
| Extended (newExpiresAt : jsval).

(** The "Insert Coin" handlers ([insert_coin_server] select menu and
    [coin_] buttons, identical code).  The source mutates the timer object
    in place ([timer.expiresAt = ...]) and then stores that same object with
    [updateInstance]; the only reference to it is the record's, so the
    functional update below has the same effect on the registry. *)
Definition insertCoin (instances : registry) (coinInstanceId : string)
    (coinMinutes : Z) (nowISO : string) : registry * CoinResult :=
  match InstanceState.getInstance instances coinInstanceId with
  | None => (instances, NoActiveTimer)
  | Some trackedInstance =>
      let timer := obj_get trackedInstance "selfDestructTimer" in
      if negb (truthy timer) then (instances, NoActiveTimer)
      else
        let newExpiresAt := js_add_num (js_get timer "expiresAt") (coinMinutes * 60 * 1000) in
        let timer1 := js_set_prop timer "expiresAt" newExpiresAt in
        let timer2 := js_set_prop timer1 "extendedCount"
                        (js_add_num (js_or (js_get timer1 "extendedCount") (JNum 0)) 1) in
        (fst (updateInstance instances coinInstanceId (obj_get trackedInstance "status")
                [("selfDestructTimer", timer2)] nowISO),
         Extended newExpiresAt)
  end.

(* ------------------------------------------------------------------ *)
(** ** Strings *)

(** [hay.includes(needle)] *)
Fixpoint str_includes (hay needle : string) : bool :=
  String.prefix needle hay ||
  match hay with
  | EmptyString => false
  | String _ rest => str_includes rest needle
  end.

(** [arr.join(sep)] *)
Fixpoint str_join (sep : string) (l : list string) : string :=
  match l with
  | [] => ""
  | [x] => x
  | x :: t => x ++ sep ++ str_join sep t
  end.

Definition is_hex (c : Ascii.ascii) : bool :=
  let n := Ascii.nat_of_ascii c in
  (Nat.leb 48 n && Nat.leb n 57) || (Nat.leb 97 n && Nat.leb n 102) ||
  (Nat.leb 65 n && Nat.leb n 70).

(** [/^[0-9a-f]{8}-[0-9a-f]{4}-[0-9a-f]{4}-[0-9a-f]{4}-[0-9a-f]{12}$/i.test(s)] *)
Fixpoint uuid_from (pos : nat) (s : string) : bool :=
  match s with
  | EmptyString => Nat.eqb pos 36
  | String c rest =>
      Nat.ltb pos 36 &&
      (if existsb (Nat.eqb pos) [8; 13; 18; 23]%nat
       then Ascii.eqb c "-"%char else is_hex c) &&
      uuid_from (S pos) rest
  end.

Definition uuidRegex_test (s : string) : bool := uuid_from O s.

(* ------------------------------------------------------------------ *)
(** ** Configuration and the provider-access layer *)

(** The environment the code reads, and what the metadata service at
    [169.254.169.254/v1/instanceid] answers ([None]: unreachable). *)
Record Config : Type := {
  metadata_instance_id : option string;
  EXCLUDE_INSTANCE_ID : option string;
  EXCLUDE_SNAPSHOT_ID : option string;
  VULTR_FIREWALL_GROUP_ID : option string
}.

(** [process.env.X] *)
Definition env_val (o : option string) : jsval :=
  match o with Some s => JStr s | None => JUndef end.

(** [getCurrentServerInstanceId()], cached in [currentServerInstanceId]:
    the metadata answer (trimmed), else [EXCLUDE_INSTANCE_ID || null]. *)
Definition currentServerInstanceId (cfg : Config) : jsval :=
  match metadata_instance_id cfg with
  | Some s => JStr s
  | None => js_or (env_val (EXCLUDE_INSTANCE_ID cfg)) JNull
  end.

(** [isCurrentServer(instanceId)] *)
Definition isCurrentServer (cfg : Config) (instanceId : jsval) : bool :=
  js_strict_eq (currentServerInstanceId cfg) instanceId ||
  js_strict_eq (env_val (EXCLUDE_INSTANCE_ID cfg)) instanceId.

Definition nullish (v : jsval) : bool :=
  match v with JUndef | JNull => true | _ => false end.

(** What [vultr.instances.getInstance] does: throw (with the HTTP status of
    [error.response], if any) or answer with [response.instance]. *)
Inductive ProviderGet : Type :=
| PGetErr (status : option Z)
| PGetOk (instance : jsval).

(** What the wrapper [getInstance] does: throw or return a value. *)
Inductive GetResult : Type :=
| GIThrow (status : option Z)
| GIRet (v : jsval).

(** [getInstance(instanceId)] (returns null for excluded instances).  The
    log lines read [instance.label] / [instance.snapshot_id], which throws
    a TypeError when the provider answered without an instance. *)
Definition getInstance (cfg : Config) (instanceId : string) (resp : ProviderGet) : GetResult :=
  match resp with
  | PGetErr s => GIThrow s
  | PGetOk instance =>
      if isCurrentServer cfg (JStr instanceId) then
        (if nullish instance then GIThrow None else GIRet JNull)
      else
        let excludeSnapshotId := env_val (EXCLUDE_SNAPSHOT_ID cfg) in
        if truthy excludeSnapshotId then
          (if nullish instance then GIThrow None
           else if js_strict_eq (js_get instance "snapshot_id") excludeSnapshotId
                then GIRet JNull else GIRet instance)
        else GIRet instance
  end.

(** [listInstances()] on the provider's [response.instances]. *)
Definition listInstances (cfg : Config) (instances : list obj) : list obj :=
  let filteredInstances :=
    filter (fun i => negb (isCurrentServer cfg (obj_get i "id"))) instances in
  let excludeSnapshotId := env_val (EXCLUDE_SNAPSHOT_ID cfg) in
  if truthy excludeSnapshotId then
    filter (fun i => negb (js_strict_eq (obj_get i "snapshot_id") excludeSnapshotId))
      filteredInstances
  else filteredInstances.

(** Calls the code issues to the provider (and its timed waits). *)
Inductive Call : Type :=
| CListSnapshots
| CCreateInstance
| CDirectCreate
| CGetInstance (id : jsval)
| CUpdateFirewall (id : jsval) (firewallGroupId : string)
| CUpdateDdos (id : jsval)
| CDeleteInstance (id : jsval)
| CStartInstance (id : jsval)
| CSleep (ms : Z).

Definition is_delete (c : Call) : bool :=
  match c with CDeleteInstance _ => true | _ => false end.


(* ------------------------------------------------------------------ *)
(** ** Provisioning pipeline: [createInstanceFromSnapshot] *)

Definition dq : string := String "034"%char EmptyString.

Inductive CreateResp : Type :=
| CreateThrow (status : option Z) (errorMsg : string)
| CreateOk (response : jsval).

(** One firewall attempt: the attach call throws, or succeeds and the
    verifying [getInstance] throws or reports a firewall id. *)
Inductive VerifyResp : Type :=
| VerifyThrow
| VerifyOk (actualFirewallId : jsval).

Inductive AttemptResp : Type :=
| AttachThrow
| AttachOk (verify : VerifyResp).

(** The provider's answers during one run ([p_attempt k]: attempt [k]). *)
Record Provider : Type := {
  p_snapshots : string + list (string * jsval);
  p_create : CreateResp;
  p_direct : option string;
  p_attempt : nat -> AttemptResp;
  p_ddos_update_ok : bool
}.

Definition maxRetries : nat := 10.

Section Provisioning.

(** [JSON.stringify] and number-to-string conversion, used only in error
    texts. *)
Variable stringify : jsval -> string.
Variable z_to_string : Z -> string.

Definition object_keys_empty (v : jsval) : bool :=
  match v with
  | JObj o => match o with [] => true | _ => false end
  | JArr l => match l with [] => true | _ => false end
  | JStr s => String.eqb s ""
  | _ => true
  end.

Definition create_error_message (status : option Z) (errorMsg snapshotId regionStr : string) : string :=
  match status with
  | Some 400 => "Vultr API validation error (400): " ++ errorMsg ++
      ". Check: 1) Snapshot ID exists, 2) Plan is available in region, 3) Region is valid"
  | Some 401 => "Vultr API authentication failed (401). Check your VULTR_API_KEY is correct and has proper permissions."
  | Some 403 => "Vultr API access denied (403). Check: 1) API key has " ++ dq ++ "Instances" ++ dq ++
      " permission, 2) Server IP is in allowed IP list"
  | Some 404 => "Vultr API resource not found (404): " ++ errorMsg ++ ". Check: 1) Snapshot ID " ++
      dq ++ snapshotId ++ dq ++ " exists, 2) Region " ++ dq ++ regionStr ++ dq ++ " is valid"
  | Some n => "Vultr API error (" ++ z_to_string n ++ "): " ++ errorMsg
  | None => "Vultr API error (unknown): " ++ errorMsg
  end.

(** Everything before the firewall loop: validation, the snapshot check and
    the create call.  [inr] carries [response.instance]. *)
Definition pre_loop (cfg : Config) (snapshotId regionStr : string) (prov : Provider)
    : list Call * (string + jsval) :=
  let firewallGroupId := env_val (VULTR_FIREWALL_GROUP_ID cfg) in
  match firewallGroupId with
  | JStr fw =>
    if String.eqb fw "" then
      ([], inl "VULTR_FIREWALL_GROUP_ID is required but not set in environment variables. Firewall is mandatory.")
    else if negb (uuidRegex_test fw) then
      ([], inl ("Invalid firewall_group_id format: " ++ dq ++ fw ++ dq ++
                ". Expected UUID format (e.g., " ++ dq ++ "1c4c6504-5094-4de1-a0bc-f7e885580921" ++ dq ++ ")"))
    else if negb (negb (String.eqb snapshotId "") && uuidRegex_test snapshotId) then
      ([], inl ("Invalid snapshot_id format: " ++ dq ++ snapshotId ++ dq ++ ". Expected UUID format."))
    else
      match p_snapshots prov with
      | inl msg => ([CListSnapshots], inl msg)
      | inr snapshots =>
        if negb (existsb (fun s => String.eqb (fst s) snapshotId) snapshots) then
          let available := str_join ", "
                (map (fun s => fst s ++ " (" ++
                        (match js_or (snd s) (JStr "Unnamed") with JStr d => d | v => stringify v end)
                        ++ ")") snapshots) in
          ([CListSnapshots],
           inl ("Snapshot " ++ snapshotId ++ " not found. Available snapshots: " ++
                (if String.eqb available "" then "none" else available)))
        else
          match p_create prov with
          | CreateThrow status errorMsg =>
              ([CListSnapshots; CCreateInstance],
               inl (create_error_message status errorMsg snapshotId regionStr))
          | CreateOk response =>
              if negb (truthy response) || object_keys_empty response then
                ([CListSnapshots; CCreateInstance; CDirectCreate],
                 inl (match p_direct prov with
                      | Some directMsg =>
                          "Vultr API returned empty response. Direct API call also failed: " ++ directMsg
                      | None =>
                          "Vultr API returned empty response. Check API key permissions and snapshot/plan validity."
                      end))
              else if negb (truthy (js_get response "instance")) then
                ([CListSnapshots; CCreateInstance],
                 inl ("Invalid API response: expected response.instance but got: " ++ stringify response))
              else if negb (truthy (js_get (js_get response "instance") "id")) then
                ([CListSnapshots; CCreateInstance],
                 inl ("Instance created but missing ID in response: " ++
                      stringify (js_get response "instance")))
              else ([CListSnapshots; CCreateInstance], inr (js_get response "instance"))
          end
      end
  | _ => ([], inl "VULTR_FIREWALL_GROUP_ID is required but not set in environment variables. Firewall is mandatory.")
  end.

End Provisioning.

(** The firewall attach/verify loop:
    [while (!firewallAttached && retryCount < maxRetries)].  [fuel] is
    [maxRetries - retryCount]. *)
Fixpoint firewall_loop (instanceId : jsval) (firewallGroupId : string)
    (attempt : nat -> AttemptResp) (retryCount fuel : nat) : bool * list Call :=
  match fuel with
  | O => (false, [])
  | S fuel' =>
      let rc := S retryCount in
      let catch_wait := if Nat.ltb rc maxRetries then [CSleep 10000] else [] in
      let next := firewall_loop instanceId firewallGroupId attempt rc fuel' in
      match attempt rc with
      | AttachThrow =>
          (fst next, CUpdateFirewall instanceId firewallGroupId :: (catch_wait ++ snd next)%list)
      | AttachOk VerifyThrow =>
          (fst next, [CUpdateFirewall instanceId firewallGroupId; CSleep 3000;
                      CGetInstance instanceId] ++ catch_wait ++ snd next)%list
      | AttachOk (VerifyOk actualFirewallId) =>
          if js_is_str actualFirewallId firewallGroupId then
            (true, [CUpdateFirewall instanceId firewallGroupId; CSleep 3000; CGetInstance instanceId])
          else
            (fst next, [CUpdateFirewall instanceId firewallGroupId; CSleep 3000;
                        CGetInstance instanceId; CSleep 5000] ++ snd next)%list
      end
  end.

Definition security_failure_message : string :=
  "SECURITY FAILURE: Firewall could not be attached after 10 attempts. Instance was destroyed for security. Please try again.".

(** The outer [catch]: known messages are rethrown, others wrapped. *)
Definition rethrow_or_wrap (msg : string) : string :=
  if existsb (str_includes msg)
       ["VULTR_FIREWALL_GROUP_ID"; "Invalid"; "Vultr API"; "Failed to attach"; "Snapshot"]
  then msg else "Failed to create instance: " ++ msg.

(** [createInstanceFromSnapshot(snapshotId, label, region)]: the calls it
    issues and its result ([inl]: the returned instance, [inr]: the message
    of the thrown error).  The deletion of an unprotected instance is issued
    once; its failure is only logged. *)
Definition createInstanceFromSnapshot (stringify : jsval -> string) (z_to_string : Z -> string)
    (cfg : Config) (snapshotId regionStr : string) (prov : Provider)
    : list Call * (jsval + string) :=
  let '(calls0, r0) := pre_loop stringify z_to_string cfg snapshotId regionStr prov in
  match r0 with
  | inl msg => (calls0, inr (rethrow_or_wrap msg))
  | inr instance =>
      let instanceId := js_get instance "id" in
      let firewallGroupId :=
        match VULTR_FIREWALL_GROUP_ID cfg with Some fw => fw | None => "" end in
      let '(firewallAttached, calls1) :=
        firewall_loop instanceId firewallGroupId (p_attempt prov) O maxRetries in
      if negb firewallAttached then
        ((calls0 ++ calls1 ++ [CDeleteInstance instanceId])%list,
         inr (rethrow_or_wrap security_failure_message))
      else
        let ddos_calls :=
          if p_ddos_update_ok prov
          then [CUpdateDdos instanceId; CSleep 2000; CGetInstance instanceId]
          else [CUpdateDdos instanceId] in
        ((calls0 ++ calls1 ++ ddos_calls)%list, inl instance)
  end.

(* ------------------------------------------------------------------ *)
(** ** Messages sent to users *)

Inductive Send : Type :=
| FReady | FRestoring | FProgress | FTimeout | FUnavailable | FApiError
| FDestroyed | FDestroying | FDestroyTimeout
| DmReady | DmWarning (minutes : Z) | DmSelfDestructed
| PanelRefresh.

Inductive PollOutcome : Type :=
| PollStop
| PollAgain (ms : Z).

(* ------------------------------------------------------------------ *)
(** ** Status reconciliation poller: one [pollStatus] tick of
    [startInstanceStatusPolling] *)

Definition status_maxWaitTime : Z := 30 * 60 * 1000.

(** [status === 'active' && power_status === 'running' && main_ip &&
     main_ip !== '0.0.0.0' && main_ip !== ''] *)
Definition ready_cond (instance : jsval) : bool :=
  js_is_str (js_get instance "status") "active" &&
  js_is_str (js_get instance "power_status") "running" &&
  truthy (js_get instance "main_ip") &&
  negb (js_is_str (js_get instance "main_ip") "0.0.0.0") &&
  negb (js_is_str (js_get instance "main_ip") "").

Definition restoring_cond (instance : jsval) : bool :=
  js_is_str (js_get instance "status") "active" &&
  js_is_str (js_get instance "power_status") "stopped".

(** [elapsed] is [Date.now() - startTime]; [resp] the provider's answer to
    the GET; [followUpOk] whether [interaction.followUp] succeeds (it
    rethrows on failure); creation DMs catch their own errors. *)
Definition pollStatus_tick (cfg : Config) (instances : registry) (instanceId : string)
    (elapsed : Z) (resp : ProviderGet) (followUpOk sendDM : bool)
    (initialMinutes now : Z) (nowISO : string)
    : registry * list Call * list Send * PollOutcome :=
  let catch_ (reg : registry) (calls : list Call) (sends : list Send) :=
    if elapsed <? status_maxWaitTime then (reg, calls, sends, PollAgain 45000)
    else (reg, calls, (sends ++ [FApiError])%list, PollStop) in
  let follow (reg : registry) (calls : list Call) (sends : list Send) (out : PollOutcome) :=
    if followUpOk then (reg, calls, sends, out) else catch_ reg calls sends in
  if status_maxWaitTime <? elapsed then (instances, [], [FTimeout], PollStop)
  else
    let calls := [CGetInstance (JStr instanceId)] in
    match getInstance cfg instanceId resp with
    | GIThrow _ => catch_ instances calls []
    | GIRet instance =>
        if negb (truthy instance) then follow instances calls [FUnavailable] PollStop
        else
          let reg1 := fst (updateInstance instances instanceId (js_get instance "power_status")
                             [("ip", js_get instance "main_ip")] nowISO) in
          if ready_cond instance then
            let reg2 := initializeSelfDestructTimer reg1 instanceId initialMinutes now nowISO in
            follow reg2 calls ((if sendDM then [DmReady] else []) ++ [FReady])%list PollStop
          else if restoring_cond instance then
            follow reg1 calls [FRestoring] (PollAgain 45000)
          else
            follow reg1 calls [FProgress] (PollAgain 45000)
    end.

(* ------------------------------------------------------------------ *)
(** ** Destruction reconciliation poller: one [pollStatus] tick of
    [startInstanceDestructionPolling] *)

Definition destruction_maxWaitTime : Z := 15 * 60 * 1000.

Inductive DestrOutcome : Type :=
| DConfirmed
| DAgain (ms : Z)
| DTimedOut.

Definition mark_destroyed (instances : registry) (instanceId : string) (nowISO : string) : registry :=
  fst (updateInstance instances instanceId (JStr "destroyed") [("selfDestructTimer", JNull)] nowISO).

(** [del]: [None] when [deleteInstance] succeeds, [Some status] when it
    throws (every delete error is swallowed; only non-400 ones are
    logged).  Errors thrown by [followUp] carry no [response.status].
    A failed follow-up on the 404/403 path and on the timeout path is an
    unhandled rejection that only ends this [pollStatus] call: nothing is
    rescheduled there either way, so [followUpOk] is not consulted. *)
Definition destruction_tick (cfg : Config) (instances : registry) (instanceId : string)
    (elapsed : Z) (resp : ProviderGet) (del : option (option Z)) (followUpOk : bool)
    (nowISO : string) : registry * list Call * list Send * DestrOutcome :=
  let catch_ (reg : registry) (calls : list Call) (sends : list Send) (status : option Z) :=
    match status with
    | Some 404 | Some 403 =>
        (mark_destroyed reg instanceId nowISO, calls, (sends ++ [FDestroyed])%list, DConfirmed)
    | _ => (reg, calls, sends, DAgain 10000)
    end in
  if destruction_maxWaitTime <? elapsed then (instances, [], [FDestroyTimeout], DTimedOut)
  else
    let calls := [CGetInstance (JStr instanceId)] in
    match getInstance cfg instanceId resp with
    | GIThrow s => catch_ instances calls [] s
    | GIRet instance =>
        if negb (truthy instance) then
          let reg1 := mark_destroyed instances instanceId nowISO in
          if followUpOk then (reg1, calls, [FDestroyed], DConfirmed)
          else catch_ reg1 calls [FDestroyed] None
        else
          let calls1 := (calls ++ [CDeleteInstance (JStr instanceId)])%list in
          if followUpOk then (instances, calls1, [FDestroying], DAgain 10000)
          else catch_ instances calls1 [FDestroying] None
    end.

(** One tick's inputs: elapsed time, GET answer, delete answer, follow-up. *)
Record DestrTick : Type := {
  t_elapsed : Z;
  t_get : ProviderGet;
  t_del : option (option Z);
  t_followUpOk : bool;
  t_nowISO : string
}.

(** Successive ticks, rescheduled while the outcome is [DAgain]; returns
    the registry, the number of ticks run and the last outcome. *)
Fixpoint destruction_run (cfg : Config) (instances : registry) (instanceId : string)
    (ticks : list DestrTick) : registry * nat * DestrOutcome :=
  match ticks with
  | [] => (instances, O, DAgain 10000)
  | t :: rest =>
      let '(reg1, _, _, out) :=
        destruction_tick cfg instances instanceId (t_elapsed t) (t_get t) (t_del t)
          (t_followUpOk t) (t_nowISO t) in
      match out with
      | DAgain _ =>
          match rest with
          | [] => (reg1, 1%nat, out)
          | _ => let '(reg2, n, out2) := destruction_run cfg reg1 instanceId rest in
                 (reg2, S n, out2)
          end
      | _ => (reg1, 1%nat, out)
      end
  end.

(* ------------------------------------------------------------------ *)
(** ** Self-destruct sweep: [checkTimers] of [startSelfDestructPolling] *)

(** Provider answers for one sweep, per instance id: the GET answer and
    the delete answer ([None]: success, [Some s]: throws). *)
Definition SweepProvider := string -> ProviderGet * option (option Z).

(** [timer.warningsSent.push(w)] followed by
    [updateInstance(id, trackedInstance.status, {selfDestructTimer: timer})];
    [None] when [timer.warningsSent] is not an array (TypeError, which
    aborts the whole sweep). *)
Definition record_warning (instances : registry) (trackedInstance : obj) (instanceId : string)
    (timer : jsval) (w : string) (nowISO : string) : option registry :=
  match js_get timer "warningsSent" with
  | JArr l =>
      let timer' := js_set_prop timer "warningsSent" (JArr (l ++ [JStr w])%list) in
      Some (fst (updateInstance instances instanceId (obj_get trackedInstance "status")
                   [("selfDestructTimer", timer')] nowISO))
  | _ => None
  end.

(** The loop body for one record; the [bool] is true when the sweep aborts. *)
Definition check_timer_record (cfg : Config) (instances : registry) (trackedInstance : obj)
    (now : Z) (prov : SweepProvider) (nowISO : string)
    : registry * list Call * list Send * bool :=
  let timer := obj_get trackedInstance "selfDestructTimer" in
  if negb (truthy timer) then (instances, [], [], false)
  else
  match obj_get trackedInstance "id", js_get timer "expiresAt" with
  | JStr instanceId, JNum expiresAt =>
      let remainingMs := expiresAt - now in
      let remainingMinutes := remainingMs / 60000 in
      if remainingMs <=? 0 then
        let calls := [CGetInstance (JStr instanceId)] in
        match getInstance cfg instanceId (fst (prov instanceId)) with
        | GIThrow _ => (instances, calls, [], false)
        | GIRet vultrInstance =>
            if negb (truthy vultrInstance) then
              (mark_destroyed instances instanceId nowISO, calls, [], false)
            else
              let calls1 := (calls ++ [CDeleteInstance (JStr instanceId)])%list in
              match snd (prov instanceId) with
              | Some _ => (instances, calls1, [], false)
              | None => (mark_destroyed instances instanceId nowISO, calls1,
                         [DmSelfDestructed; PanelRefresh], false)
              end
        end
      else
        let warningsSent := js_or (js_get timer "warningsSent") (JArr []) in
        if (remainingMinutes <=? 10) && (5 <? remainingMinutes) &&
           negb (js_includes_str warningsSent "10min") then
          match record_warning instances trackedInstance instanceId timer "10min" nowISO with
          | Some reg1 => (reg1, [], [DmWarning 10], false)
          | None => (instances, [], [DmWarning 10], true)
          end
        else if (remainingMinutes <=? 5) && negb (js_includes_str warningsSent "5min") then
          match record_warning instances trackedInstance instanceId timer "5min" nowISO with
          | Some reg1 => (reg1, [], [DmWarning 5], false)
          | None => (instances, [], [DmWarning 5], true)
          end
        else (instances, [], [], false)
  | _, _ =>
      (* ids are strings (set by [trackInstance]); a non-numeric
         [expiresAt] makes every comparison on NaN false *)
      (instances, [], [], false)
  end.

Fixpoint sweep (cfg : Config) (snapshot : list obj) (instances : registry) (now : Z)
    (prov : SweepProvider) (nowISO : string) : registry * list Call * list Send :=
  match snapshot with
  | [] => (instances, [], [])
  | t :: rest =>
      let '(reg1, c1, s1, aborted) := check_timer_record cfg instances t now prov nowISO in
      if aborted then (reg1, c1, s1)
      else
        let '(reg2, c2, s2) := sweep cfg rest reg1 now prov nowISO in
        (reg2, (c1 ++ c2)%list, (s1 ++ s2)%list)
  end.

(** [checkTimers()]: walks the active instances listed at its start. *)
Definition checkTimers (cfg : Config) (instances : registry) (now : Z)
    (prov : SweepProvider) (nowISO : string) : registry * list Call * list Send :=
  sweep cfg (getActiveInstances instances) instances now prov nowISO.

(* ------------------------------------------------------------------ *)
(** ** Panel render guard: [updatePanel] *)

(** [panelUpdateInProgress], [pendingPanelUpdate], and bookkeeping of the
    cooperative scheduler: renders currently running, renders started so
    far, queued [setTimeout(updatePanel, 100)] callbacks, and interaction
    calls sleeping in their 100 ms wait. *)
Record PanelState : Type := {
  panelUpdateInProgress : bool;
  pendingPanelUpdate : bool;
  running : nat;
  started : nat;
  scheduled : nat;
  waiting : nat
}.

Inductive PanelEvent : Type :=
| Request (withInteraction : bool)  (* a call [updatePanel(interaction?)] *)
| Recheck                           (* a waiting interaction call wakes up *)
| Finish                            (* the running render reaches [finally] *)
| Fire.                             (* a queued [setTimeout] callback runs *)

Definition panel_init : PanelState := Build_PanelState false false 0 0 0 0.

(** Lock acquisition and render start. *)
Definition start_render (s : PanelState) : PanelState :=
  Build_PanelState true false (S (running s)) (S (started s)) (scheduled s) (waiting s).

Definition panel_request (s : PanelState) (withInteraction : bool) : PanelState :=
  if panelUpdateInProgress s then
    if withInteraction
    then Build_PanelState true (pendingPanelUpdate s) (running s) (started s) (scheduled s) (S (waiting s))
    else Build_PanelState true true (running s) (started s) (scheduled s) (waiting s)
  else start_render s.

(** [None] when the event cannot happen in state [s]. *)
Definition panel_step (s : PanelState) (e : PanelEvent) : option PanelState :=
  match e with
  | Request b => Some (panel_request s b)
  | Recheck =>
      match waiting s with
      | O => None
      | S w =>
          let s' := Build_PanelState (panelUpdateInProgress s) (pendingPanelUpdate s)
                      (running s) (started s) (scheduled s) w in
          if panelUpdateInProgress s' then Some s'   (* "already in progress, skipping" *)
          else Some (start_render s')
      end
  | Finish =>
      match running s with
      | O => None
      | S r =>
          Some (Build_PanelState false (pendingPanelUpdate s) r (started s)
                  (if pendingPanelUpdate s then S (scheduled s) else scheduled s) (waiting s))
      end
  | Fire =>
      match scheduled s with
      | O => None
      | S k =>
          Some (panel_request (Build_PanelState (panelUpdateInProgress s) (pendingPanelUpdate s)
                                 (running s) (started s) k (waiting s)) false)
      end
  end.

Fixpoint panel_run (s : PanelState) (es : list PanelEvent) : option PanelState :=
  match es with
  | [] => Some s
  | e :: rest => match panel_step s e with Some s' => panel_run s' rest | None => None end
  end.

(* ------------------------------------------------------------------ *)
(** ** String helpers: [trim], [split], [replace]

    Strings are the UTF-8 bytes of the text.  [trim] and [\s] act on the
    JavaScript white-space and line-terminator code points: U+0009-U+000D,
    U+0020, U+00A0, U+1680, U+2000-U+200A, U+2028, U+2029, U+202F, U+205F,
    U+3000 and U+FEFF.  Each is matched by its UTF-8 encoding, which starts
    with an ASCII or a lead byte and so, in well-formed UTF-8, only matches
    a whole code point.  Splitting on an ASCII character and comparing
    strings act on the bytes as the source does on the code points. *)

(** The UTF-8 encodings of the code points above. *)
Definition js_ws_seqs : list (list ascii) :=
  [["009"%char]; ["010"%char]; ["011"%char]; ["012"%char];
   ["013"%char]; ["032"%char]; ["194"%char; "160"%char]; ["225"%char; "154"%char; "128"%char];
   ["226"%char; "128"%char; "128"%char]; ["226"%char; "128"%char; "129"%char]; ["226"%char; "128"%char; "130"%char]; ["226"%char; "128"%char; "131"%char];
   ["226"%char; "128"%char; "132"%char]; ["226"%char; "128"%char; "133"%char]; ["226"%char; "128"%char; "134"%char]; ["226"%char; "128"%char; "135"%char];
   ["226"%char; "128"%char; "136"%char]; ["226"%char; "128"%char; "137"%char]; ["226"%char; "128"%char; "138"%char]; ["226"%char; "128"%char; "168"%char];
   ["226"%char; "128"%char; "169"%char]; ["226"%char; "128"%char; "175"%char]; ["226"%char; "129"%char; "159"%char]; ["227"%char; "128"%char; "128"%char];
   ["239"%char; "187"%char; "191"%char]].

Fixpoint list_prefix (p l : list ascii) : bool :=
  match p, l with
  | [], _ => true
  | a :: p', b :: l' => Ascii.eqb a b && list_prefix p' l'
  | _ :: _, [] => false
  end.

(** Removes leading occurrences of the sequences [seqs], at most [fuel]
    of them. *)
Fixpoint drop_seqs (seqs : list (list ascii)) (fuel : nat) (l : list ascii) : list ascii :=
  match fuel with
  | O => l
  | S f =>
      match find (fun w => list_prefix w l) seqs with
      | Some w => drop_seqs seqs f (skipn (length w) l)
      | None => l
      end
  end.

(** [\s*] at the start of the bytes [l] (each step removes a byte at
    least, so [length l] steps suffice). *)
Definition drop_ws (l : list ascii) : list ascii :=
  drop_seqs js_ws_seqs (length l) l.

(** [\s*] at the end of a string, on its reversed bytes [l]. *)
Definition drop_ws_rev (l : list ascii) : list ascii :=
  drop_seqs (map (@rev ascii) js_ws_seqs) (length l) l.

(** [s.trim()] *)
Definition trim (s : string) : string :=
  string_of_list_ascii (rev (drop_ws_rev (rev (drop_ws (list_ascii_of_string s))))).

(** [s.split(sep)] for a one-character separator. *)
Fixpoint split_on (sep : ascii) (s : string) : list string :=
  match s with
  | EmptyString => [""]
  | String c rest =>
      if Ascii.eqb c sep then "" :: split_on sep rest
      else match split_on sep rest with
           | h :: t => String c h :: t
           | [] => [String c ""]
           end
  end.

Fixpoint str_drop (n : nat) (s : string) : string :=
  match n, s with
  | O, _ => s
  | S n', String _ rest => str_drop n' rest
  | S _, EmptyString => EmptyString
  end.

(** [s.replace(pat, rep)] with a string pattern: the first occurrence only. *)
Fixpoint replace_first (pat rep s : string) : string :=
  if String.prefix pat s then rep ++ str_drop (String.length pat) s
  else match s with
       | EmptyString => EmptyString
       | String c rest => String c (replace_first pat rep rest)
       end.

(** [String(n)] for a non-negative integer. *)
Definition z_to_dec (n : Z) : string :=
  NilEmpty.string_of_uint (N.to_uint (Z.to_N n)).

(** [s.padStart(2, '0')] *)
Definition padStart2 (s : string) : string :=
  match String.length s with
  | O => "00" ++ s
  | 1%nat => "0" ++ s
  | _ => s
  end.

(* ------------------------------------------------------------------ *)
(** ** [formatRemainingTime(expiresAt)]; [now] is [Date.now()] *)

Definition formatRemainingTime (expiresAt now : Z) : string :=
  let remainingMs := expiresAt - now in
  if remainingMs <=? 0 then "0:00"
  else
    let totalSeconds := remainingMs / 1000 in
    let hours := totalSeconds / 3600 in
    let minutes := (totalSeconds mod 3600) / 60 in
    let seconds := totalSeconds mod 60 in
    if 0 <? hours then
      z_to_dec hours ++ ":" ++ padStart2 (z_to_dec minutes) ++ ":" ++ padStart2 (z_to_dec seconds)
    else z_to_dec minutes ++ ":" ++ padStart2 (z_to_dec seconds).

(** Reading a displayed time back ([h:mm:ss] or [m:ss]) as a number of
    seconds; used to state what [formatRemainingTime] displays. *)
Definition dec_to_z (s : string) : option Z :=
  option_map (fun d => Z.of_N (N.of_uint d)) (NilEmpty.uint_of_string s).

Definition parseRemainingTime (s : string) : option Z :=
  match split_on ":" s with
  | [m; sec] =>
      match dec_to_z m, dec_to_z sec with
      | Some m, Some sec => Some (m * 60 + sec)
      | _, _ => None
      end
  | [h; m; sec] =>
      match dec_to_z h, dec_to_z m, dec_to_z sec with
      | Some h, Some m, Some sec => Some (h * 3600 + m * 60 + sec)
      | _, _, _ => None
      end
  | _ => None
  end.

(* ------------------------------------------------------------------ *)
(** ** Snapshot helpers *)

(** [hasSnapshotPermission(userId)]; [userId] is [String(userId)]. *)
Definition hasSnapshotPermission (ADMIN_USER_IDS : option string) (userId : string) : bool :=
  let adminUsers :=
    match ADMIN_USER_IDS with
    | Some v => map trim (split_on "," v)
    | None => []
    end in
  existsb (String.eqb userId) adminUsers.

(** [.replace(/^\[(PUBLIC|PRIVATE)\]\s*/, '')] *)
Definition strip_visibility_prefix (s : string) : string :=
  if String.prefix "[PUBLIC]" s
  then string_of_list_ascii (drop_ws (list_ascii_of_string (str_drop 8 s)))
  else if String.prefix "[PRIVATE]" s
  then string_of_list_ascii (drop_ws (list_ascii_of_string (str_drop 9 s)))
  else s.

(** [.replace(/\s*\|\s*$/, '')]: the leftmost match starts at the
    whitespace before the last [|], when only whitespace follows it. *)
Definition strip_trailing_separator (s : string) : string :=
  match drop_ws_rev (rev (list_ascii_of_string s)) with
  | c :: t => if Ascii.eqb c "|" then string_of_list_ascii (rev (drop_ws_rev t)) else s
  | [] => s
  end.

(** [getCleanSnapshotName(snapshot)]; [None]: the description is a truthy
    non-string, which has no [replace] (TypeError). *)
Definition getCleanSnapshotName (snapshot : obj) : option string :=
  match js_or (obj_get snapshot "description") (JStr "Unnamed Snapshot") with
  | JStr description =>
      let s := trim (strip_trailing_separator (strip_visibility_prefix description)) in
      Some (if String.eqb s "" then "Unnamed Snapshot" else s)
  | _ => None
  end.

(** The snapshot description built by the [/snapshot] command from its
    [name], [description] (or [''] when absent) and [public] options. *)
Definition snapshot_description (isPublic : bool) (snapshotName userDescription : string) : string :=
  let prefix := if isPublic then "[PUBLIC]" else "[PRIVATE]" in
  if String.eqb userDescription "" then prefix ++ " " ++ snapshotName
  else prefix ++ " " ++ snapshotName ++ " | " ++ userDescription.

(** [snapshot.description || ''] as a string; [None] for a truthy
    non-string ([startsWith] is not a function: TypeError). *)
Definition description_str (snapshot : obj) : option string :=
  match js_or (obj_get snapshot "description") (JStr "") with
  | JStr d => Some d
  | _ => None
  end.

Definition is_marked_public (snapshot : obj) : option bool :=
  match description_str snapshot with
  | Some description =>
      Some ((String.prefix "[PUBLIC]" description || str_includes description "#public")
            && js_is_str (obj_get snapshot "status") "complete")
  | None => None
  end.

(** [arr.filter(p)] with a callback that may throw ([None]). *)
Fixpoint filter_throw {A} (p : A -> option bool) (l : list A) : option (list A) :=
  match l with
  | [] => Some []
  | x :: t =>
      match p x, filter_throw p t with
      | Some b, Some r => Some (if b then x :: r else r)
      | _, _ => None
      end
  end.

(** The [legacySnapshots.forEach] body: push unless an entry with the same
    id is already there. *)
Definition merge_legacy (publicSnapshots : list obj) (legacySnap : obj) : list obj :=
  match find (fun pubSnap => js_strict_eq (obj_get pubSnap "id") (obj_get legacySnap "id"))
             publicSnapshots with
  | Some _ => publicSnapshots
  | None => (publicSnapshots ++ [legacySnap])%list
  end.

(** The fallback: with no marked snapshot and [VULTR_SNAPSHOT_ID] set, the
    snapshot of that id if it is complete. *)
Definition default_snapshot (VULTR_SNAPSHOT_ID : option string)
    (publicSnapshots allSnapshots : list obj) : option obj :=
  match publicSnapshots, VULTR_SNAPSHOT_ID with
  | [], Some envId =>
      if truthy (JStr envId) then
        match find (fun snap => js_is_str (obj_get snap "id") envId) allSnapshots with
        | Some defaultSnapshot =>
            if js_is_str (obj_get defaultSnapshot "status") "complete"
            then Some defaultSnapshot else None
        | None => None
        end
      else None
  | _, _ => None
  end.

(** [process.env.VULTR_PUBLIC_SNAPSHOTS?.split(',').map(id => id.trim()) || []] *)
Definition legacy_ids (VULTR_PUBLIC_SNAPSHOTS : option string) : list string :=
  match VULTR_PUBLIC_SNAPSHOTS with
  | Some v => map trim (split_on "," v)
  | None => []
  end.

(** [legacySnapshotIds.includes(snap.id) && snap.status === 'complete'] *)
Definition is_legacy (legacySnapshotIds : list string) (snap : obj) : bool :=
  match obj_get snap "id" with
  | JStr i => existsb (String.eqb i) legacySnapshotIds
  | _ => false
  end && js_is_str (obj_get snap "status") "complete".

(** [getPublicSnapshots()] on the result of [getSnapshots()] (already
    sorted; [None] when it throws). *)
Definition getPublicSnapshots (VULTR_SNAPSHOT_ID VULTR_PUBLIC_SNAPSHOTS : option string)
    (snapshotsResult : option (list obj)) : list obj :=
  match snapshotsResult with
  | None => []
  | Some allSnapshots =>
    match filter_throw is_marked_public allSnapshots with
    | None => []
    | Some publicSnapshots =>
      match default_snapshot VULTR_SNAPSHOT_ID publicSnapshots allSnapshots with
      | Some defaultSnapshot => [defaultSnapshot]
      | None =>
        let legacySnapshotIds := legacy_ids VULTR_PUBLIC_SNAPSHOTS in
        match legacySnapshotIds with
        | [] => publicSnapshots
        | _ =>
          let legacySnapshots := filter (is_legacy legacySnapshotIds) allSnapshots in
          fold_left merge_legacy legacySnapshots publicSnapshots
        end
      end
    end
  end.

(* ------------------------------------------------------------------ *)
(** ** The [/list] command's sync, and the startup recovery

    Instance ids are strings in provider answers and in the registry (set
    by [trackInstance]); an entry without a string id is left alone. *)

(** One [vultrInstances.forEach] step; [activeInstances] is the list taken
    before the loop. *)
Definition sync_one (activeInstances : registry) (instances : registry)
    (vultrInstance : obj) (nowISO : string) : registry :=
  match obj_get vultrInstance "id" with
  | JStr vid =>
      match find (fun i => has_id i vid) activeInstances with
      | Some _ =>
          fst (updateInstance instances vid (obj_get vultrInstance "power_status")
                 [("ip", obj_get vultrInstance "main_ip")] nowISO)
      | None =>
          fst (InstanceState.trackInstance instances vid "unknown" "Unknown"
                 (obj_get vultrInstance "power_status")
                 [("ip", obj_get vultrInstance "main_ip");
                  ("name", js_or (obj_get vultrInstance "label") (JStr "Unknown Server"))] nowISO)
      end
  | _ => instances
  end.

(** One [activeInstances.forEach] step: mark a record the provider no
    longer lists as terminated. *)
Definition terminate_missing (vultrInstances : list obj) (instances : registry)
    (trackedInstance : obj) (nowISO : string) : registry :=
  match obj_get trackedInstance "id" with
  | JStr tid =>
      match find (fun i => js_is_str (obj_get i "id") tid) vultrInstances with
      | Some _ => instances
      | None => fst (updateInstance instances tid (JStr "terminated") [] nowISO)
      end
  | _ => instances
  end.

Definition list_sync (instances : registry) (vultrInstances : list obj) (nowISO : string) : registry :=
  let activeInstances := getActiveInstances instances in
  let reg1 := fold_left (fun reg v => sync_one activeInstances reg v nowISO) vultrInstances instances in
  fold_left (fun reg t => terminate_missing vultrInstances reg t nowISO) activeInstances reg1.

(** [listCommand.execute]: [resp] is the provider's instance list ([None]
    when [listInstances()] throws: local data is kept); returns the
    registry and the active instances it displays. *)
Definition listCommand (cfg : Config) (instances : registry) (resp : option (list obj))
    (nowISO : string) : registry * registry :=
  let reg := match resp with
             | Some raw => list_sync instances (listInstances cfg raw) nowISO
             | None => instances
             end in
  (reg, getActiveInstances reg).

(** One step of the startup recovery over [instanceTest.instances] (the
    provider's raw list, not [listInstances()]). *)
Definition recover_one (cfg : Config) (instances : registry) (vultrInstance : obj)
    (nowISO : string) : registry :=
  if js_strict_eq (obj_get vultrInstance "id") (env_val (EXCLUDE_INSTANCE_ID cfg)) then instances
  else
    match obj_get vultrInstance "id" with
    | JStr vid =>
        fst (InstanceState.trackInstance instances vid "unknown" "System Recovery"
               (obj_get vultrInstance "power_status")
               [("ip", obj_get vultrInstance "main_ip");
                ("name", js_or (obj_get vultrInstance "label") (JStr "Recovered Server"));
                ("region", obj_get vultrInstance "region")] nowISO)
    | _ => instances
    end.

Definition recoverInstances (cfg : Config) (instances : registry) (vultrInstances : list obj)
    (nowISO : string) : registry :=
  fold_left (fun reg v => recover_one cfg reg v nowISO) vultrInstances instances.

(* ------------------------------------------------------------------ *)
(** ** [startInstance] and [waitForInstanceStatus] *)

(** One loop iteration's inputs: [Date.now() - startTime] and the answer
    to the GET. *)
Record WaitCheck : Type := {
  w_elapsed : Z;
  w_get : ProviderGet
}.

(** [None]: still waiting when the given checks run out.  Errors of the
    wrapper [getInstance] are swallowed. *)
Fixpoint waitForInstanceStatus (cfg : Config) (instanceId targetPowerStatus : string)
    (timeout : Z) (checks : list WaitCheck) : option bool :=
  match checks with
  | [] => None
  | c :: rest =>
      if w_elapsed c <? timeout then
        match getInstance cfg instanceId (w_get c) with
        | GIThrow _ => waitForInstanceStatus cfg instanceId targetPowerStatus timeout rest
        | GIRet instance =>
            if negb (truthy instance) then Some false
            else if js_is_str (js_get instance "power_status") targetPowerStatus then Some true
            else waitForInstanceStatus cfg instanceId targetPowerStatus timeout rest
        end
      else Some false
  end.

Inductive PowerReply : Type :=
| PowerOk | PowerUnconfirmed | PowerError | PowerPending.

(** [startInstance(interaction, instanceId)]: [replyOk] is whether the
    first [editReply] succeeds, [startOk] whether the provider's start call
    does (a failure of either is caught and reported). *)
Definition startInstance (cfg : Config) (instances : registry) (instanceId : string)
    (replyOk startOk : bool) (checks : list WaitCheck) (nowISO : string)
    : registry * list Call * PowerReply :=
  if negb replyOk then (instances, [], PowerError)
  else
    let calls := [CStartInstance (JStr instanceId)] in
    if negb startOk then (instances, calls, PowerError)
    else
      match waitForInstanceStatus cfg instanceId "running" (15 * 60 * 1000) checks with
      | None => (instances, calls, PowerPending)
      | Some true => (fst (updateInstance instances instanceId (JStr "running") [] nowISO), calls, PowerOk)
      | Some false => (instances, calls, PowerUnconfirmed)
      end.

(* ------------------------------------------------------------------ *)
(** ** The [destroy_server] select-menu handler (after its deferral) *)

Inductive DestroyReply : Type :=
| DRSelfProtected | DRNotAvailable | DRPolling | DRBusy | DRDeleteError | DRError.

(** [resp]: the GET answer; [replyOk]: whether the progress [editReply]
    succeeds; [del]: the delete answer ([None]: success, [Some s]: throws
    with [response.status] [s]).  [calculateInstanceCost] catches its own
    errors; its plan listing is not traced.  [DRPolling] is the start of
    [startInstanceDestructionPolling]. *)
Definition destroyServerSelect (cfg : Config) (instances : registry) (destroyId : string)
    (resp : ProviderGet) (replyOk : bool) (del : option (option Z)) (nowISO : string)
    : registry * list Call * DestroyReply :=
  if isCurrentServer cfg (JStr destroyId) then (instances, [], DRSelfProtected)
  else
    let calls := [CGetInstance (JStr destroyId)] in
    match getInstance cfg destroyId resp with
    | GIThrow _ => (instances, calls, DRError)
    | GIRet instance =>
        if negb (truthy instance) then (instances, calls, DRNotAvailable)
        else if negb replyOk then (instances, calls, DRError)
        else
          let calls1 := (calls ++ [CDeleteInstance (JStr destroyId)])%list in
          match del with
          | None =>
              let reg1 :=
                match InstanceState.getInstance instances destroyId with
                | Some trackedInstance =>
                    if truthy (obj_get trackedInstance "selfDestructTimer")
                    then fst (updateInstance instances destroyId (obj_get trackedInstance "status")
                                [("selfDestructTimer", JNull)] nowISO)
                    else instances
                | None => instances
                end in
              (reg1, calls1, DRPolling)
          | Some (Some 400) => (instances, calls1, DRBusy)
          | Some _ => (instances, calls1, DRDeleteError)
          end
    end.

(* ------------------------------------------------------------------ *)
(** ** Button routing in the interaction handler *)

Inductive ButtonAction : Type :=
| BCreateModal | BRestoreModal
| BConfirmRestart (instanceId : string) | BCancelRestart
| BCoin (instanceId : string)
| BList | BStart | BDestroy | BRestart | BInsertCoin
| BQuick (regionId : string)
| BUnknown.

(** The order of the tests on [interaction.customId] for a button. *)
Definition button_route (customId : string) : ButtonAction :=
  if String.eqb customId "btn_create_modal" then BCreateModal
  else if String.eqb customId "btn_restore_modal" then BRestoreModal
  else if String.prefix "confirm_restart_" customId
  then BConfirmRestart (replace_first "confirm_restart_" "" customId)
  else if String.eqb customId "cancel_restart" then BCancelRestart
  else if String.prefix "coin_" customId then BCoin (replace_first "coin_" "" customId)
  else if String.eqb customId "btn_list" then BList
  else if String.eqb customId "btn_start" then BStart
  else if String.eqb customId "btn_destroy" then BDestroy
  else if String.eqb customId "btn_restart" then BRestart
  else if String.eqb customId "btn_insert_coin" then BInsertCoin
  else if String.prefix "btn_quick_" customId
  then BQuick (replace_first "btn_quick_" "" customId)
  else BUnknown.

(* ------------------------------------------------------------------ *)
(** ** Snapshot status poller: [startSnapshotStatusPolling] *)

Inductive SnapMsg : Type :=
| SComplete | SFailed | SProgress | STimeout | SApiErrors.

Definition snapshot_maxWaitTime : Z := 30 * 60 * 1000.

(** One [pollStatus] tick: [elapsed] is [Date.now() - startTime] at the
    hard-stop test, [elapsedCatch] at the test in [catch]; [resp] the
    result of [getSnapshots()] ([None]: throws); [followUpOk] whether the
    tick's [sendAutoCleanupFollowUp] succeeds (it rethrows).  Messages are
    those attempted. *)
Definition snapshot_tick (snapshotId : string) (elapsed elapsedCatch : Z)
    (resp : option (list obj)) (followUpOk : bool) : list SnapMsg * PollOutcome :=
  let catch_ (sends : list SnapMsg) :=
    if elapsedCatch <? snapshot_maxWaitTime then (sends, PollAgain 30000)
    else ((sends ++ [SApiErrors])%list, PollStop) in
  let follow (sends : list SnapMsg) (out : PollOutcome) :=
    if followUpOk then (sends, out) else catch_ sends in
  if snapshot_maxWaitTime <? elapsed then ([STimeout], PollStop)
  else
    match resp with
    | None => catch_ []
    | Some snapshots =>
        match find (fun s => js_is_str (obj_get s "id") snapshotId) snapshots with
        | None => ([], PollAgain 30000)
        | Some snapshot =>
            if js_is_str (obj_get snapshot "status") "complete" then follow [SComplete] PollStop
            else if js_is_str (obj_get snapshot "status") "error" ||
                    js_is_str (obj_get snapshot "status") "failed"
            then follow [SFailed] PollStop
            else follow [SProgress] (PollAgain 30000)
        end
    end.

Record SnapTick : Type := {
  st_elapsed : Z;
  st_elapsedCatch : Z;
  st_resp : option (list obj);
  st_followUpOk : bool
}.

(** Successive ticks, rescheduled while the outcome is [PollAgain]; returns
    the number of ticks run, the messages and the last outcome. *)
Fixpoint snapshot_run (snapshotId : string) (ticks : list SnapTick)
    : nat * list SnapMsg * PollOutcome :=
  match ticks with
  | [] => (O, [], PollAgain 30000)
  | t :: rest =>
      let '(sends, out) :=
        snapshot_tick snapshotId (st_elapsed t) (st_elapsedCatch t) (st_resp t) (st_followUpOk t) in
      match out with
      | PollAgain _ =>
          match rest with
          | [] => (1%nat, sends, out)
          | _ => let '(n, sends2, out2) := snapshot_run snapshotId rest in
                 (S n, (sends ++ sends2)%list, out2)
          end
      | PollStop => (1%nat, sends, out)
      end
  end.

(** Tick times as the timers produce them: each tick at least 30 s
    (snapshot poller) or 10 s (destruction poller) after the previous one,
    the first one at least that long after [prev]. *)
Fixpoint snap_spaced (prev : Z) (ticks : list SnapTick) : bool :=
  match ticks with
  | [] => true
  | t :: rest => (prev + 30000 <=? st_elapsed t) && snap_spaced (st_elapsed t) rest
  end.

Fixpoint destr_spaced (prev : Z) (ticks : list DestrTick) : bool :=
  match ticks with
  | [] => true
  | t :: rest => (prev + 10000 <=? t_elapsed t) && destr_spaced (t_elapsed t) rest
  end.

(* ------------------------------------------------------------------ *)
(** ** Sample inputs and auxiliary definitions *)

Definition sample_timer_registry : registry :=
  initializeSelfDestructTimer
    (fst (InstanceState.trackInstance [] "abc" "u1" "bob" (JStr "running") [] "T0"))
    "abc" 180 1000 "T1".

(** Only a successful attach followed by a matching re-read counts. *)
Definition attempt_verified (fw : string) (r : AttemptResp) : bool :=
  match r with AttachOk (VerifyOk a) => js_is_str a fw | _ => false end.

Ltac case_matches :=
  repeat match goal with |- context [match ?x with _ => _ end] => destruct x end.

Definition sample_fw : string := "1c4c6504-5094-4de1-a0bc-f7e885580921".
Definition sample_snapshot : string := "11111111-2222-3333-4444-555555555555".

Definition sample_cfg : Config :=
  {| metadata_instance_id := None; EXCLUDE_INSTANCE_ID := None;
     EXCLUDE_SNAPSHOT_ID := None; VULTR_FIREWALL_GROUP_ID := Some sample_fw |}.

Definition sample_provider (attempt : nat -> AttemptResp) : Provider :=
  {| p_snapshots := inr [(sample_snapshot, JStr "base image")];
     p_create := CreateOk (JObj [("instance", JObj [("id", JStr "inst-1")])]);
     p_direct := None;
     p_attempt := attempt;
     p_ddos_update_ok := true |}.

Definition sample_instance (status power ip : string) : jsval :=
  JObj [("id", JStr "inst-1"); ("status", JStr status); ("power_status", JStr power);
        ("main_ip", JStr ip)].

Definition dtick (elapsed : Z) (resp : ProviderGet) (del : option (option Z)) (iso : string) : DestrTick :=
  {| t_elapsed := elapsed; t_get := resp; t_del := del; t_followUpOk := true; t_nowISO := iso |}.

Definition sample_registry : registry :=
  fst (InstanceState.trackInstance [] "inst-1" "u1" "bob" (JStr "running") [] "T0").

(** The bot's own host: the auto-detected id, or [EXCLUDE_INSTANCE_ID]. *)
Definition self_protected (cfg : Config) (id : string) : Prop :=
  currentServerInstanceId cfg = JStr id \/ EXCLUDE_INSTANCE_ID cfg = Some id.

Definition host_cfg : Config :=
  {| metadata_instance_id := Some "host-1"; EXCLUDE_INSTANCE_ID := None;
     EXCLUDE_SNAPSHOT_ID := Some "snap-host"; VULTR_FIREWALL_GROUP_ID := Some sample_fw |}.

(** The record as [updateInstance(id, 'destroyed', {selfDestructTimer: null})]
    leaves it. *)
Definition destroyed_record (r : obj) (iso : string) : obj :=
  updated r (JStr "destroyed") [("selfDestructTimer", JNull)] iso.

(** A registry whose record "inst-1" has a timer that expired at
    10 800 000 ms, and a provider that still lists the instance but
    rejects its deletion. *)
Definition sample_expired_reg : registry :=
  initializeSelfDestructTimer sample_registry "inst-1" 180 0 "T1".

Definition sample_expired_record : obj :=
  match InstanceState.getInstance sample_expired_reg "inst-1" with Some r => r | None => [] end.

Definition sample_failing_delete : SweepProvider :=
  fun _ => (PGetOk (sample_instance "active" "running" "10.0.0.1"), Some (Some 500)).

(** The guard's invariant: the lock is held exactly while one render runs. *)
Definition panel_inv (s : PanelState) : Prop :=
  (running s = 0%nat /\ panelUpdateInProgress s = false) \/
  (running s = 1%nat /\ panelUpdateInProgress s = true).

(** Characters that [trim] keeps at the ends of a string (printable
    ASCII), ids without a comma, and names whose ends are printable and
    not a separator [|]. *)
Definition visible (c : ascii) : bool :=
  Nat.leb 33 (nat_of_ascii c) && Nat.leb (nat_of_ascii c) 126.
Definition plain_id (s : string) : bool :=
  forallb (fun c => visible c && negb (Ascii.eqb c ",")) (list_ascii_of_string s).
Definition edge_ok (s : string) : bool :=
  match list_ascii_of_string s, rev (list_ascii_of_string s) with
  | c :: _, c' :: _ => visible c && visible c' && negb (Ascii.eqb c' "|")
  | _, _ => false
  end.

(** [l] does not start with one of the sequences [seqs]. *)
Definition no_lead (seqs : list (list ascii)) (l : list ascii) : Prop :=
  existsb (fun w => list_prefix w l) seqs = false.

(** The string starts, or ends, with a JavaScript white-space code point. *)
Definition starts_with_ws (s : string) : bool :=
  existsb (fun w => list_prefix w (list_ascii_of_string s)) js_ws_seqs.
Definition ends_with_ws (s : string) : bool :=
  existsb (fun w => list_prefix (rev w) (rev (list_ascii_of_string s))) js_ws_seqs.

(** A snapshot whose description has a no-break space (U+00A0) after the
    prefix and an ideographic space (U+3000) at the end. *)
Definition unicode_ws_snapshot : obj :=
  [("description", JStr ("[PUBLIC]" ++ String "194"%char (String "160"%char
      ("Valheim" ++ String "227"%char (String "128"%char (String "128"%char EmptyString))))))].

(** A record of the registry with status [terminated]. *)
Definition terminated_in (reg : registry) (x : string) : Prop :=
  exists r, InstanceState.getInstance reg x = Some r /\ obj_get r "status" = JStr "terminated".

(** What the startup recovery stores for a provider instance [v]. *)
Definition recovered_record (r v : obj) : Prop :=
  obj_get r "status" = js_or (obj_get v "power_status") (JStr "creating") /\
  obj_get r "creator" = JObj [("id", JStr "unknown"); ("username", JStr "System Recovery")].

(** Sample snapshots, provider instance lists and registries. *)
Definition snapshot_a : obj :=
  [("id", JStr "snap-a"); ("description", JStr "[PUBLIC] Minecraft | modded");
   ("status", JStr "complete")].
Definition snapshot_b : obj :=
  [("id", JStr "snap-b"); ("description", JStr "[PUBLIC] Valheim"); ("status", JStr "pending")].
Definition snapshot_c : obj :=
  [("id", JStr "snap-c"); ("description", JStr "[PRIVATE] Backup"); ("status", JStr "complete")].
Definition sample_snapshots : list obj := [snapshot_a; snapshot_b; snapshot_c].

Definition vultr_instance (id power : string) : obj :=
  [("id", JStr id); ("power_status", JStr power); ("main_ip", JStr "10.0.0.9");
   ("label", JStr ""); ("region", JStr "ewr")].

Definition sample_record : obj :=
  match InstanceState.getInstance sample_registry "inst-1" with Some r => r | None => [] end.

Definition host_registry : registry :=
  fst (InstanceState.trackInstance [] "host-1" "u1" "bob" (JStr "running") [] "T0").

Definition host_record : obj :=
  match InstanceState.getInstance host_registry "host-1" with Some r => r | None => [] end.

Definition exclude_cfg : Config :=
  {| metadata_instance_id := None; EXCLUDE_INSTANCE_ID := Some "host-1";
     EXCLUDE_SNAPSHOT_ID := None; VULTR_FIREWALL_GROUP_ID := None |}.

Definition snap_tick (elapsed : Z) (resp : option (list obj)) : SnapTick :=
  {| st_elapsed := elapsed; st_elapsedCatch := elapsed; st_resp := resp; st_followUpOk := true |}.

(* ================================================================== *)
(** * Properties *)

(* ------------------------------------------------------------------ *)
(** ** Objects and arrays *)

Lemma obj_get_set : forall o k v k',
  obj_get (obj_set o k v) k' = if String.eqb k k' then v else obj_get o k'.
Proof.
  induction o as [|[k0 v0] t IH]; intros k v k'; simpl.
  - destruct (String.eqb k k'); reflexivity.
  - destruct (String.eqb_spec k0 k) as [->|Hne]; simpl.
    + destruct (String.eqb k k'); reflexivity.
    + rewrite IH. destruct (String.eqb_spec k0 k') as [->|Hne'].
      * destruct (String.eqb_spec k k') as [->|]; [congruence | reflexivity].
      * destruct (String.eqb k k'); reflexivity.
Qed.

Lemma spread_cons : forall a k v b, spread a ((k, v) :: b) = spread (obj_set a k v) b.
Proof. reflexivity. Qed.

Lemma obj_get_spread_notin : forall b a k,
  ~ In k (map fst b) -> obj_get (spread a b) k = obj_get a k.
Proof.
  induction b as [|[k0 v0] b IH]; intros a k Hk; simpl in *; [reflexivity|].
  rewrite IH by tauto. rewrite obj_get_set.
  destruct (String.eqb_spec k0 k); [subst; tauto | reflexivity].
Qed.

Lemma obj_get_spread_in : forall b a k v,
  In (k, v) b -> NoDup (map fst b) -> obj_get (spread a b) k = v.
Proof.
  induction b as [|[k0 v0] b IH]; intros a k v Hin Hnd; simpl in *; [contradiction|].
  inversion Hnd as [|? ? Hnotin Hnd']; subst.
  destruct Hin as [Heq|Hin].
  - inversion Heq; subst. rewrite obj_get_spread_notin by assumption.
    rewrite obj_get_set, String.eqb_refl. reflexivity.
  - apply IH; assumption.
Qed.

Lemma find_findIndex : forall {A} (p : A -> bool) l n,
  findIndex p l = Some n -> exists e, nth_error l n = Some e /\ find p l = Some e /\ p e = true.
Proof.
  intros A p l; induction l as [|x t IH]; intros n H; simpl in *; [discriminate|].
  destruct (p x) eqn:Hp.
  - inversion H; subst. exists x. auto.
  - destruct (findIndex p t) as [m|] eqn:Hm; simpl in H; [|discriminate].
    inversion H; subst. simpl. apply IH. reflexivity.
Qed.

Lemma findIndex_None : forall {A} (p : A -> bool) l,
  findIndex p l = None -> find p l = None.
Proof.
  intros A p l; induction l as [|x t IH]; intros H; simpl in *; [reflexivity|].
  destruct (p x); [discriminate|].
  destruct (findIndex p t); [discriminate|]. apply IH; reflexivity.
Qed.

Lemma find_replace_same : forall {A} (p : A -> bool) l n v,
  findIndex p l = Some n -> p v = true -> find p (replace_nth l n v) = Some v.
Proof.
  intros A p l; induction l as [|x t IH]; intros n v H Hv; simpl in *; [discriminate|].
  destruct (p x) eqn:Hp.
  - inversion H; subst. simpl. rewrite Hv. reflexivity.
  - destruct (findIndex p t) as [m|] eqn:Hm; simpl in H; [|discriminate].
    inversion H; subst. simpl. rewrite Hp. apply IH; auto.
Qed.

Lemma find_replace_other : forall {A} (p : A -> bool) l n e v,
  nth_error l n = Some e -> p e = false -> p v = false ->
  find p (replace_nth l n v) = find p l.
Proof.
  intros A p l; induction l as [|x t IH]; intros n e v H He Hv; simpl in *.
  - destruct n; reflexivity.
  - destruct n as [|n]; simpl in *.
    + inversion H; subst. rewrite He, Hv. reflexivity.
    + destruct (p x); [reflexivity|]. eapply IH; eauto.
Qed.

Lemma find_split : forall {A} (p : A -> bool) l r,
  find p l = Some r ->
  exists a b, l = (a ++ r :: b)%list /\ (forall t, In t a -> p t = false) /\ p r = true.
Proof.
  intros A p l; induction l as [|x t IH]; intros r H; simpl in *; [discriminate|].
  destruct (p x) eqn:Hp.
  - inversion H; subst. exists [], t. split; [reflexivity|]. split; [intros ? []|assumption].
  - destruct (IH r H) as (a & b & -> & Ha & Hr).
    exists (x :: a), b. split; [reflexivity|]. split; [|assumption].
    intros t0 [<-|Hin]; auto.
Qed.

(** Records that [updateInstance] writes keep their [id]. *)
Lemma updated_id : forall e st md iso,
  ~ In "id" (map fst md) -> obj_get (updated e st md iso) "id" = obj_get e "id".
Proof.
  intros. unfold updated. rewrite obj_get_spread_notin by assumption.
  rewrite !obj_get_set. reflexivity.
Qed.

Lemma update_same : forall reg y e st md iso,
  InstanceState.getInstance reg y = Some e -> ~ In "id" (map fst md) ->
  InstanceState.getInstance (fst (updateInstance reg y st md iso)) y =
  Some (updated e st md iso).
Proof.
  intros reg y e st md iso H Hmd. unfold updateInstance, InstanceState.getInstance in *.
  destruct (findIndex (fun i => has_id i y) reg) as [n|] eqn:Hn.
  - destruct (find_findIndex _ _ _ Hn) as (e' & Hnth & Hf & Hp).
    rewrite Hf in H. inversion H; subst. rewrite Hnth. simpl.
    apply find_replace_same; [assumption|]. unfold has_id in *. rewrite updated_id; assumption.
  - rewrite (findIndex_None _ _ Hn) in H. discriminate.
Qed.

Lemma update_other : forall reg x y st md iso,
  x <> y -> ~ In "id" (map fst md) ->
  InstanceState.getInstance (fst (updateInstance reg y st md iso)) x =
  InstanceState.getInstance reg x.
Proof.
  intros reg x y st md iso Hxy Hmd. unfold updateInstance, InstanceState.getInstance.
  destruct (findIndex (fun i => has_id i y) reg) as [n|] eqn:Hn; [|reflexivity].
  destruct (find_findIndex _ _ _ Hn) as (e & Hnth & _ & Hp). rewrite Hnth. simpl.
  assert (Hx : forall i, has_id i y = true -> has_id i x = false).
  { unfold has_id, js_is_str. intros i Hi. destruct (obj_get i "id"); try discriminate.
    apply String.eqb_eq in Hi; subst. apply String.eqb_neq. congruence. }
  eapply find_replace_other; eauto. apply Hx. unfold has_id in *.
  rewrite updated_id; assumption.
Qed.

Lemma not_in_id_1 : forall k (v : jsval), k <> "id" -> ~ In "id" (map fst [(k, v)]).
Proof. intros k v Hk [H|[]]. simpl in H. congruence. Qed.

Lemma updated_get_1 : forall e st k v iso k',
  obj_get (updated e st [(k, v)] iso) k' =
  if String.eqb k k' then v
  else if String.eqb "lastUpdated" k' then JStr iso
  else if String.eqb "status" k' then st else obj_get e k'.
Proof. intros. unfold updated. simpl. rewrite !obj_get_set. reflexivity. Qed.

(* ------------------------------------------------------------------ *)
(** ** C7: timer initialization is idempotent *)

Lemma init_noop : forall reg id im now iso r,
  InstanceState.getInstance reg id = Some r ->
  truthy (obj_get r "selfDestructTimer") = true ->
  initializeSelfDestructTimer reg id im now iso = reg.
Proof. intros. unfold initializeSelfDestructTimer. rewrite H, H0. reflexivity. Qed.

(** C7: once a record has a self-destruct timer, calling
    [initializeSelfDestructTimer] again leaves the registry unchanged (so
    [expiresAt], [extendedCount] and [warningsSent] are unchanged); a second
    call after a first one is always a no-op; and a status update that does
    not name [selfDestructTimer] (such as re-entering "running") keeps the
    existing timer. *)
Theorem initializeSelfDestructTimer_once : forall reg id im1 now1 iso1 im2 now2 iso2,
  (forall r, InstanceState.getInstance reg id = Some r ->
     truthy (obj_get r "selfDestructTimer") = true ->
     initializeSelfDestructTimer reg id im2 now2 iso2 = reg) /\
  initializeSelfDestructTimer (initializeSelfDestructTimer reg id im1 now1 iso1) id im2 now2 iso2 =
  initializeSelfDestructTimer reg id im1 now1 iso1 /\
  (forall r st k v iso, InstanceState.getInstance reg id = Some r ->
     k <> "id" -> k <> "selfDestructTimer" ->
     exists r', InstanceState.getInstance (fst (updateInstance reg id st [(k, v)] iso)) id = Some r' /\
       obj_get r' "selfDestructTimer" = obj_get r "selfDestructTimer").
Proof.
  intros reg id im1 now1 iso1 im2 now2 iso2. split; [|split].
  - intros r Hr Ht. exact (init_noop _ _ _ _ _ _ Hr Ht).
  - destruct (InstanceState.getInstance reg id) as [r|] eqn:Hr.
    + destruct (truthy (obj_get r "selfDestructTimer")) eqn:Ht.
      * rewrite (init_noop _ _ _ _ _ _ Hr Ht). apply (init_noop _ _ _ _ _ _ Hr Ht).
      * assert (E : initializeSelfDestructTimer reg id im1 now1 iso1 =
                    fst (updateInstance reg id (obj_get r "status")
                           [("selfDestructTimer", new_timer now1 im1)] iso1))
          by (unfold initializeSelfDestructTimer; rewrite Hr, Ht; reflexivity).
        rewrite E. unfold initializeSelfDestructTimer at 1.
        rewrite (update_same _ _ _ _ _ _ Hr) by (apply not_in_id_1; discriminate).
        rewrite updated_get_1, String.eqb_refl. reflexivity.
    + assert (E : initializeSelfDestructTimer reg id im1 now1 iso1 = reg)
        by (unfold initializeSelfDestructTimer; rewrite Hr; reflexivity).
      rewrite E. unfold initializeSelfDestructTimer. rewrite Hr. reflexivity.
  - intros r st k v iso Hr Hk Hk'. eexists. split.
    + apply update_same; [exact Hr | apply not_in_id_1; exact Hk].
    + rewrite updated_get_1. destruct (String.eqb_spec k "selfDestructTimer"); [congruence|].
      reflexivity.
Qed.

(** Witness: a concrete registry whose record already has a timer. *)
Lemma initializeSelfDestructTimer_once_witness :
  let reg := initializeSelfDestructTimer
               (fst (InstanceState.trackInstance [] "abc" "u1" "bob" (JStr "running") [] "T0"))
               "abc" 180 1000 "T1" in
  (exists r, InstanceState.getInstance reg "abc" = Some r /\
     truthy (obj_get r "selfDestructTimer") = true) /\
  initializeSelfDestructTimer reg "abc" 180 99999 "T2" = reg.
Proof.
  intros reg. split.
  - eexists. split; [reflexivity | reflexivity].
  - destruct (initializeSelfDestructTimer_once reg "abc" 180 5 "T" 180 99999 "T2") as [H _].
    exact (H _ eq_refl eq_refl).
Defined.

(* ------------------------------------------------------------------ *)
(** ** C4: [trackInstance] on an existing id *)

Lemma instanceData_keys_NoDup : forall id uid uname st md iso,
  NoDup (map fst (instanceData id uid uname st md iso)).
Proof.
  intros. simpl.
  repeat constructor; simpl; intros H; repeat destruct H as [H|H]; discriminate || contradiction.
Qed.

(** C4 (counterexample): a record tracked with ip "1.2.3.4" at time "T0"
    and tracked again with empty metadata ends up with ip null and
    createdAt "T1": fields absent from the metadata are not preserved. *)
Lemma trackInstance_merge_counterexample :
  let reg := fst (InstanceState.trackInstance [] "abc" "u1" "bob" (JStr "pending")
                    [("ip", JStr "1.2.3.4")] "T0") in
  exists r r',
    InstanceState.getInstance reg "abc" = Some r /\
    InstanceState.getInstance
      (fst (InstanceState.trackInstance reg "abc" "u1" "bob" (JStr "running") [] "T1")) "abc" = Some r' /\
    obj_get r "ip" = JStr "1.2.3.4" /\ obj_get r' "ip" = JNull /\
    obj_get r "createdAt" = JStr "T0" /\ obj_get r' "createdAt" = JStr "T1".
Proof. do 2 eexists. repeat split; reflexivity. Qed.

(** C4 (amended): on an existing id, [trackInstance] stores
    [{...existing, ...instanceData}]: id, creator, createdAt (reset to now),
    status (default "creating"), ip ([metadata.ip] or null), name
    ([metadata.name] or a default) and lastUpdated are always overwritten;
    every other field of the existing record (such as [selfDestructTimer])
    is kept. *)
Theorem trackInstance_merge : forall reg id uid uname st md iso r,
  InstanceState.getInstance reg id = Some r ->
  let d := instanceData id uid uname st md iso in
  InstanceState.getInstance (fst (InstanceState.trackInstance reg id uid uname st md iso)) id =
    Some (spread r d) /\
  (forall k, ~ In k ["id"; "creator"; "createdAt"; "status"; "ip"; "name"; "lastUpdated"] ->
     obj_get (spread r d) k = obj_get r k) /\
  (forall k v, In (k, v) d -> obj_get (spread r d) k = v).
Proof.
  intros reg id uid uname st md iso r Hr d. subst d.
  set (d := instanceData id uid uname st md iso).
  assert (Hd : forall k v, In (k, v) d -> obj_get (spread r d) k = v).
  { intros k v Hin. apply obj_get_spread_in; [exact Hin | apply instanceData_keys_NoDup]. }
  split; [|split].
  - unfold InstanceState.trackInstance, InstanceState.getInstance in *. fold d.
    change (instanceData id uid uname st md iso) with d.
    destruct (findIndex (fun i => has_id i id) reg) as [n|] eqn:Hn.
    + destruct (find_findIndex _ _ _ Hn) as (e & Hnth & Hf & _).
      assert (e = r) by congruence. subst e. rewrite Hnth. cbn [fst].
      apply find_replace_same; [exact Hn|].
      unfold has_id. rewrite (Hd "id" (JStr id)) by (left; reflexivity).
      apply String.eqb_refl.
    + rewrite (findIndex_None _ _ Hn) in Hr. discriminate.
  - intros k Hk. apply obj_get_spread_notin. exact Hk.
  - exact Hd.
Qed.

(** Witness: the registry of the counterexample. *)
Lemma trackInstance_merge_witness :
  let reg := fst (InstanceState.trackInstance [] "abc" "u1" "bob" (JStr "pending")
                    [("ip", JStr "1.2.3.4")] "T0") in
  exists r, InstanceState.getInstance reg "abc" = Some r /\
    InstanceState.getInstance
      (fst (InstanceState.trackInstance reg "abc" "u1" "bob" (JStr "running") [] "T1")) "abc" =
    Some (spread r (instanceData "abc" "u1" "bob" (JStr "running") [] "T1")).
Proof.
  intros reg. eexists. split; [reflexivity|].
  refine (proj1 (trackInstance_merge reg "abc" "u1" "bob" (JStr "running") [] "T1" _ _)).
  reflexivity.
Defined.

(* ------------------------------------------------------------------ *)
(** ** C8: the "Insert Coin" extension *)

Lemma minutes_config_pos : forall env,
  (forall n, env = Some n -> 0 <= n) -> 0 < minutes_config env.
Proof.
  intros [n|] H; simpl; [|lia].
  specialize (H n eq_refl). destruct (Z.eqb_spec n 0); lia.
Qed.

(** C8 (counterexample): with [SELF_DESTRUCT_COIN_MINUTES=-5] (parsed to
    -5, which is truthy, so no fallback to 180), inserting a coin moves
    [expiresAt] from 10801000 down to 10501000. *)
Lemma insertCoin_counterexample :
  (exists r, InstanceState.getInstance sample_timer_registry "abc" = Some r /\
     js_get (obj_get r "selfDestructTimer") "expiresAt" = JNum 10801000) /\
  snd (insertCoin sample_timer_registry "abc" (minutes_config (Some (-5))) "T2") =
    Extended (JNum 10501000) /\
  10501000 < 10801000.
Proof. split; [eexists; split; reflexivity | split; [reflexivity | lia]]. Qed.

(** C8 (amended): with an active timer, inserting a coin sets [expiresAt]
    to [expiresAt + coinMinutes * 60000], increments [extendedCount] by one
    and keeps [warningsSent]; the new expiry is strictly later whenever
    [coinMinutes] is positive, which [SELF_DESTRUCT_COIN_MINUTES] gives
    unless it is set to a negative number (default 180).  Without a record
    or without a timer the result is [NoActiveTimer] and the registry is
    unchanged. *)
Theorem insertCoin_extends : forall reg id coinMinutes iso,
  (forall r t e, InstanceState.getInstance reg id = Some r ->
     obj_get r "selfDestructTimer" = JObj t -> obj_get t "expiresAt" = JNum e ->
     let '(reg', res) := insertCoin reg id coinMinutes iso in
     res = Extended (JNum (e + coinMinutes * 60 * 1000)) /\
     (exists r' t', InstanceState.getInstance reg' id = Some r' /\
        obj_get r' "selfDestructTimer" = JObj t' /\
        obj_get t' "expiresAt" = JNum (e + coinMinutes * 60 * 1000) /\
        (forall c, obj_get t "extendedCount" = JNum c -> obj_get t' "extendedCount" = JNum (c + 1)) /\
        obj_get t' "warningsSent" = obj_get t "warningsSent") /\
     (0 < coinMinutes -> e < e + coinMinutes * 60 * 1000)) /\
  ((InstanceState.getInstance reg id = None \/
    exists r, InstanceState.getInstance reg id = Some r /\
              truthy (obj_get r "selfDestructTimer") = false) ->
   insertCoin reg id coinMinutes iso = (reg, NoActiveTimer)).
Proof.
  intros reg id coinMinutes iso. split.
  - intros r t e Hr Ht He. unfold insertCoin. rewrite Hr, Ht. cbn [truthy negb js_get js_set_prop].
    rewrite He. cbn [js_add_num].
    split; [reflexivity|]. split; [|lia].
    eexists. eexists. split.
    + apply update_same; [exact Hr | apply not_in_id_1; discriminate].
    + rewrite updated_get_1, String.eqb_refl. split; [reflexivity|].
      rewrite !obj_get_set. cbn. split; [reflexivity|]. split.
      * intros c Hc. rewrite Hc. unfold js_or, truthy.
        destruct (Z.eqb_spec c 0) as [->|]; reflexivity.
      * reflexivity.
  - intros [H|(r & Hr & Ht)]; unfold insertCoin.
    + rewrite H. reflexivity.
    + rewrite Hr, Ht. reflexivity.
Qed.

(** Witness: the default configuration on the sample registry. *)
Lemma insertCoin_extends_witness :
  snd (insertCoin sample_timer_registry "abc" (minutes_config None) "T2") =
    Extended (JNum (10801000 + 180 * 60 * 1000)) /\
  10801000 < 10801000 + minutes_config None * 60 * 1000.
Proof.
  destruct (insertCoin_extends sample_timer_registry "abc" (minutes_config None) "T2") as [H _].
  assert (Hr : exists r, InstanceState.getInstance sample_timer_registry "abc" = Some r)
    by (eexists; reflexivity).
  destruct Hr as [r Hr].
  assert (Ht : exists t, obj_get r "selfDestructTimer" = JObj t /\ obj_get t "expiresAt" = JNum 10801000).
  { vm_compute in Hr. inversion Hr. subst. eexists. split; reflexivity. }
  destruct Ht as (t & Ht & He).
  specialize (H r t 10801000 Hr Ht He).
  destruct (insertCoin sample_timer_registry "abc" (minutes_config None) "T2") as [reg' res].
  destruct H as (Hres & _ & Hlt). split.
  - exact Hres.
  - apply Hlt. apply minutes_config_pos. intros n Hn. discriminate.
Defined.

(* ------------------------------------------------------------------ *)
(** ** C1: the provisioning pipeline tears down an unprotected instance *)

Lemma pre_loop_no_delete : forall stringify z2s cfg snapshotId regionStr prov,
  filter is_delete (fst (pre_loop stringify z2s cfg snapshotId regionStr prov)) = [].
Proof. intros. unfold pre_loop. case_matches; reflexivity. Qed.

Lemma firewall_loop_no_delete : forall id fw att fuel rc,
  filter is_delete (snd (firewall_loop id fw att rc fuel)) = [].
Proof.
  intros id fw att fuel. induction fuel as [|fuel IH]; intros rc; [reflexivity|].
  simpl. destruct (att (S rc)) as [|[|a]]; cbn [snd];
    [| | destruct (js_is_str a fw); [reflexivity|]];
    rewrite ?filter_app; simpl; rewrite ?filter_app, IH;
    destruct (Nat.ltb (S rc) maxRetries); reflexivity.
Qed.

Lemma firewall_loop_fails : forall id fw att fuel rc,
  (forall k, (rc < k <= rc + fuel)%nat -> attempt_verified fw (att k) = false) ->
  fst (firewall_loop id fw att rc fuel) = false.
Proof.
  intros id fw att fuel. induction fuel as [|fuel IH]; intros rc H; [reflexivity|].
  assert (IH' : fst (firewall_loop id fw att (S rc) fuel) = false)
    by (apply IH; intros k Hk; apply H; lia).
  simpl. specialize (H (S rc) ltac:(lia)).
  destruct (att (S rc)) as [|[|a]]; simpl in H |- *; try exact IH'.
  rewrite H. exact IH'.
Qed.

(** C1: in every run that reaches the firewall loop (validation and create
    succeeded, [response.instance] returned) and in which none of the 10
    attempts is verified, exactly one delete is issued, for the created
    instance's id, and the operation fails with the SECURITY FAILURE error
    (wrapped by the outer catch); it never returns an instance. *)
Theorem createInstance_security_failure :
  forall stringify z2s cfg snapshotId regionStr prov fw calls0 instance,
  VULTR_FIREWALL_GROUP_ID cfg = Some fw ->
  pre_loop stringify z2s cfg snapshotId regionStr prov = (calls0, inr instance) ->
  (forall k, (1 <= k <= maxRetries)%nat -> attempt_verified fw (p_attempt prov k) = false) ->
  let '(calls, res) := createInstanceFromSnapshot stringify z2s cfg snapshotId regionStr prov in
  filter is_delete calls = [CDeleteInstance (js_get instance "id")] /\
  res = inr ("Failed to create instance: " ++ security_failure_message) /\
  (forall v, res <> inl v).
Proof.
  intros stringify z2s cfg snapshotId regionStr prov fw calls0 instance Hfw Hpre Hatt.
  pose proof (pre_loop_no_delete stringify z2s cfg snapshotId regionStr prov) as Hnd0.
  rewrite Hpre in Hnd0. cbn [fst] in Hnd0.
  unfold createInstanceFromSnapshot. rewrite Hpre, Hfw.
  pose proof (firewall_loop_fails (js_get instance "id") fw (p_attempt prov) maxRetries O
                ltac:(intros k Hk; apply Hatt; lia)) as Hf.
  pose proof (firewall_loop_no_delete (js_get instance "id") fw (p_attempt prov) maxRetries O) as Hnd1.
  destruct (firewall_loop (js_get instance "id") fw (p_attempt prov) O maxRetries)
    as [attached calls1].
  cbn [fst snd] in Hf, Hnd1. subst attached. cbn [negb].
  rewrite !filter_app, Hnd0, Hnd1. split; [reflexivity|]. split; [reflexivity|].
  intros v H. discriminate.
Qed.

(** A run whose firewall is verified on the third attempt returns the
    instance and deletes nothing. *)
Example createInstance_verified_third :
  let '(calls, res) :=
    createInstanceFromSnapshot (fun _ => "") (fun _ => "") sample_cfg sample_snapshot "dfw"
      (sample_provider (fun k => if Nat.ltb k 3 then AttachOk (VerifyOk JUndef)
                                 else AttachOk (VerifyOk (JStr sample_fw)))) in
  filter is_delete calls = [] /\ res = inl (JObj [("id", JStr "inst-1")]).
Proof. split; reflexivity. Qed.

(** Witness: the firewall never shows up in the re-read. *)
Lemma createInstance_security_failure_witness :
  let prov := sample_provider (fun _ => AttachOk (VerifyOk JUndef)) in
  pre_loop (fun _ => "") (fun _ => "") sample_cfg sample_snapshot "dfw" prov =
    ([CListSnapshots; CCreateInstance], inr (JObj [("id", JStr "inst-1")])) /\
  filter is_delete (fst (createInstanceFromSnapshot (fun _ => "") (fun _ => "") sample_cfg
                           sample_snapshot "dfw" prov)) =
    [CDeleteInstance (JStr "inst-1")].
Proof.
  intros prov. split; [reflexivity|].
  pose proof (createInstance_security_failure (fun _ => "") (fun _ => "") sample_cfg sample_snapshot
                "dfw" prov sample_fw _ _ eq_refl eq_refl
                ltac:(intros k Hk; reflexivity)) as H.
  destruct (createInstanceFromSnapshot (fun _ => "") (fun _ => "") sample_cfg sample_snapshot "dfw" prov)
    as [calls res].
  exact (proj1 H).
Defined.

(* ------------------------------------------------------------------ *)
(** ** C5, C6: the status reconciliation poller *)







(* ------------------------------------------------------------------ *)
(** ** C9: the destruction reconciliation poller *)

(** C9 (counterexample): the instance is still listed on the third tick
    and the re-issued delete answers 404; the poller swallows it like the
    two 400s before and polls again: after three ticks the result is not
    [Confirmed] and the record is not marked destroyed. *)
Lemma destruction_delete_404_counterexample :
  let v := sample_instance "active" "running" "1.2.3.4" in
  destruction_run sample_cfg sample_registry "inst-1"
    [dtick 2000 (PGetOk v) (Some (Some 400)) "T1";
     dtick 12000 (PGetOk v) (Some (Some 400)) "T2";
     dtick 22000 (PGetOk v) (Some (Some 404)) "T3"] =
  (sample_registry, 3%nat, DAgain 10000).
Proof. reflexivity. Qed.

(** C9 (amended): before the 15-minute ceiling, a 404 or 403 from the
    existence check marks the record destroyed and ends with [Confirmed]
    and only the success message.  A null answer from [getInstance] also
    marks the record destroyed; the result is [Confirmed] when the success
    message is sent, and when that follow-up fails its error (which has no
    status) is caught and the poller retries in 10 s.  While the instance is
    still present the delete is re-issued, any error it raises (400, but
    also 404 or 403) is swallowed and the poller retries in 10 s; past the
    ceiling it stops with a timeout.  In particular, 400 on the delete for
    two ticks and then 404 on the third tick's existence check gives
    [Confirmed] after three ticks. *)
Theorem destruction_poller_absence :
  (forall cfg reg id elapsed s del fu iso,
     elapsed <= destruction_maxWaitTime -> (s = 404 \/ s = 403) ->
     destruction_tick cfg reg id elapsed (PGetErr (Some s)) del fu iso =
     (mark_destroyed reg id iso, [CGetInstance (JStr id)], [FDestroyed], DConfirmed)) /\
  (forall cfg reg id elapsed resp del fu iso v,
     elapsed <= destruction_maxWaitTime ->
     getInstance cfg id resp = GIRet v -> truthy v = false ->
     destruction_tick cfg reg id elapsed resp del fu iso =
     (mark_destroyed reg id iso, [CGetInstance (JStr id)], [FDestroyed],
      if fu then DConfirmed else DAgain 10000)) /\
  (forall cfg reg id elapsed resp del fu iso v,
     elapsed <= destruction_maxWaitTime ->
     getInstance cfg id resp = GIRet v -> truthy v = true ->
     destruction_tick cfg reg id elapsed resp del fu iso =
     (reg, [CGetInstance (JStr id); CDeleteInstance (JStr id)], [FDestroying], DAgain 10000)) /\
  (forall cfg reg id elapsed resp del fu iso,
     destruction_maxWaitTime < elapsed ->
     destruction_tick cfg reg id elapsed resp del fu iso =
     (reg, [], [FDestroyTimeout], DTimedOut)) /\
  (forall cfg reg id v e1 e2 e3 iso1 iso2 iso3 del3,
     e1 <= destruction_maxWaitTime -> e2 <= destruction_maxWaitTime ->
     e3 <= destruction_maxWaitTime ->
     getInstance cfg id (PGetOk v) = GIRet v -> truthy v = true ->
     destruction_run cfg reg id
       [dtick e1 (PGetOk v) (Some (Some 400)) iso1;
        dtick e2 (PGetOk v) (Some (Some 400)) iso2;
        dtick e3 (PGetErr (Some 404)) del3 iso3] =
     (mark_destroyed reg id iso3, 3%nat, DConfirmed)).
Proof.
  assert (Hle : forall e, e <= destruction_maxWaitTime -> (destruction_maxWaitTime <? e) = false)
    by (intros; apply Z.ltb_ge; lia).
  split; [|split; [|split; [|split]]].
  - intros cfg reg id elapsed s del fu iso He Hs. unfold destruction_tick.
    rewrite (Hle _ He). simpl. destruct Hs as [->| ->]; reflexivity.
  - intros cfg reg id elapsed resp del fu iso v He Hget Hv. unfold destruction_tick.
    rewrite (Hle _ He), Hget, Hv. destruct fu; reflexivity.
  - intros cfg reg id elapsed resp del fu iso v He Hget Hv. unfold destruction_tick.
    rewrite (Hle _ He), Hget, Hv. destruct fu; reflexivity.
  - intros cfg reg id elapsed resp del fu iso He. unfold destruction_tick.
    replace (destruction_maxWaitTime <? elapsed) with true by (symmetry; apply Z.ltb_lt; exact He).
    reflexivity.
  - intros cfg reg id v e1 e2 e3 iso1 iso2 iso3 del3 H1 H2 H3 Hget Hv.
    unfold destruction_run, dtick. cbn [t_elapsed t_get t_del t_followUpOk t_nowISO].
    unfold destruction_tick at 1. rewrite (Hle _ H1), Hget, Hv. cbn [negb].
    unfold destruction_tick at 1. rewrite (Hle _ H2), Hget, Hv. cbn [negb].
    unfold destruction_tick at 1. rewrite (Hle _ H3). reflexivity.
Qed.

(** Witness: the scenario on a concrete instance, and a null answer (the
    bot's own host) whose follow-up fails. *)
Lemma destruction_poller_absence_witness :
  let v := sample_instance "active" "running" "1.2.3.4" in
  destruction_run sample_cfg sample_registry "inst-1"
    [dtick 2000 (PGetOk v) (Some (Some 400)) "T1";
     dtick 12000 (PGetOk v) (Some (Some 400)) "T2";
     dtick 22000 (PGetErr (Some 404)) None "T3"] =
  (mark_destroyed sample_registry "inst-1" "T3", 3%nat, DConfirmed) /\
  destruction_tick exclude_cfg host_registry "host-1" 32000 (PGetOk v) None false "T4" =
  (mark_destroyed host_registry "host-1" "T4", [CGetInstance (JStr "host-1")], [FDestroyed],
   DAgain 10000).
Proof.
  intros v.
  destruct destruction_poller_absence as (_ & H2 & _ & _ & H).
  split.
  - apply H; [unfold destruction_maxWaitTime; lia .. | reflexivity | reflexivity].
  - apply (H2 exclude_cfg host_registry "host-1" 32000 (PGetOk v) None false "T4" JNull);
      [unfold destruction_maxWaitTime; lia | reflexivity | reflexivity].
Defined.

Example mark_destroyed_sample :
  exists r, InstanceState.getInstance (mark_destroyed sample_registry "inst-1" "T3") "inst-1" = Some r /\
    obj_get r "status" = JStr "destroyed" /\ obj_get r "selfDestructTimer" = JNull.
Proof. eexists. split; [reflexivity|]. split; reflexivity. Qed.

(* ------------------------------------------------------------------ *)
(** ** The sweep step on an expired record *)

Lemma check_timer_expired : forall cfg reg t now prov iso x e,
  obj_get t "id" = JStr x ->
  truthy (obj_get t "selfDestructTimer") = true ->
  js_get (obj_get t "selfDestructTimer") "expiresAt" = JNum e -> e <= now ->
  check_timer_record cfg reg t now prov iso =
  match getInstance cfg x (fst (prov x)) with
  | GIThrow _ => (reg, [CGetInstance (JStr x)], [], false)
  | GIRet v =>
      if negb (truthy v) then (mark_destroyed reg x iso, [CGetInstance (JStr x)], [], false)
      else match snd (prov x) with
           | Some _ => (reg, [CGetInstance (JStr x); CDeleteInstance (JStr x)], [], false)
           | None => (mark_destroyed reg x iso, [CGetInstance (JStr x); CDeleteInstance (JStr x)],
                      [DmSelfDestructed; PanelRefresh], false)
           end
  end.
Proof.
  intros cfg reg t now prov iso x e Hid Ht He Hle. unfold check_timer_record.
  rewrite Ht, Hid, He. cbn [negb].
  replace (e - now <=? 0) with true by (symmetry; apply Z.leb_le; lia).
  reflexivity.
Qed.

(* ------------------------------------------------------------------ *)
(** ** C10: self-protection in the provider-access layer *)

Lemma isCurrentServer_protected : forall cfg id,
  self_protected cfg id -> isCurrentServer cfg (JStr id) = true.
Proof.
  intros cfg id [H|H]; unfold isCurrentServer; [rewrite H | rewrite H; simpl];
    simpl; rewrite String.eqb_refl; [reflexivity | apply orb_true_r].
Qed.

(** C10: for the bot's own host (auto-detected id or [EXCLUDE_INSTANCE_ID])
    and for an instance made from a set [EXCLUDE_SNAPSHOT_ID], [getInstance]
    returns null and [listInstances] leaves it out; on that null answer the
    status poller stops with "not available", the destruction poller
    confirms the instance gone, and the timer sweep marks it destroyed
    without any delete call. *)
Theorem getInstance_self_protection :
  (forall cfg id inst, self_protected cfg id -> nullish inst = false ->
     getInstance cfg id (PGetOk inst) = GIRet JNull) /\
  (forall cfg id inst sid, EXCLUDE_SNAPSHOT_ID cfg = Some sid -> sid <> "" ->
     nullish inst = false -> js_get inst "snapshot_id" = JStr sid ->
     getInstance cfg id (PGetOk inst) = GIRet JNull) /\
  (forall cfg l id i, self_protected cfg id -> In i (listInstances cfg l) ->
     obj_get i "id" <> JStr id) /\
  (forall cfg l sid i, EXCLUDE_SNAPSHOT_ID cfg = Some sid -> sid <> "" ->
     In i (listInstances cfg l) -> obj_get i "snapshot_id" <> JStr sid) /\
  (forall cfg reg id elapsed resp sendDM im now iso,
     elapsed <= status_maxWaitTime -> getInstance cfg id resp = GIRet JNull ->
     pollStatus_tick cfg reg id elapsed resp true sendDM im now iso =
     (reg, [CGetInstance (JStr id)], [FUnavailable], PollStop)) /\
  (forall cfg reg id elapsed resp del iso,
     elapsed <= destruction_maxWaitTime -> getInstance cfg id resp = GIRet JNull ->
     destruction_tick cfg reg id elapsed resp del true iso =
     (mark_destroyed reg id iso, [CGetInstance (JStr id)], [FDestroyed], DConfirmed)) /\
  (forall cfg reg t now prov iso x e,
     obj_get t "id" = JStr x -> truthy (obj_get t "selfDestructTimer") = true ->
     js_get (obj_get t "selfDestructTimer") "expiresAt" = JNum e -> e <= now ->
     getInstance cfg x (fst (prov x)) = GIRet JNull ->
     check_timer_record cfg reg t now prov iso =
     (mark_destroyed reg x iso, [CGetInstance (JStr x)], [], false)).
Proof.
  split; [|split; [|split; [|split; [|split; [|split]]]]].
  - intros cfg id inst Hp Hn. unfold getInstance.
    rewrite (isCurrentServer_protected _ _ Hp), Hn. reflexivity.
  - intros cfg id inst sid Hs Hne Hn Hsn. unfold getInstance.
    destruct (isCurrentServer cfg (JStr id)); rewrite Hn; [reflexivity|].
    rewrite Hs. cbn [env_val truthy].
    replace (negb (String.eqb sid "")) with true
      by (symmetry; apply negb_true_iff, String.eqb_neq; exact Hne).
    rewrite Hsn. simpl. rewrite String.eqb_refl. reflexivity.
  - intros cfg l id i Hp Hin Hid. unfold listInstances in Hin.
    assert (Hf : In i (filter (fun i => negb (isCurrentServer cfg (obj_get i "id"))) l)).
    { destruct (truthy (env_val (EXCLUDE_SNAPSHOT_ID cfg))); [|exact Hin].
      apply filter_In in Hin. exact (proj1 Hin). }
    apply filter_In in Hf. destruct Hf as [_ Hf].
    rewrite Hid, (isCurrentServer_protected _ _ Hp) in Hf. discriminate.
  - intros cfg l sid i Hs Hne Hin Hsn. unfold listInstances in Hin.
    rewrite Hs in Hin. cbn [env_val truthy] in Hin.
    replace (negb (String.eqb sid "")) with true in Hin
      by (symmetry; apply negb_true_iff, String.eqb_neq; exact Hne).
    apply filter_In in Hin. destruct Hin as [_ Hin].
    rewrite Hsn in Hin. simpl in Hin. rewrite String.eqb_refl in Hin. discriminate.
  - intros cfg reg id elapsed resp sendDM im now iso He Hget. unfold pollStatus_tick.
    replace (status_maxWaitTime <? elapsed) with false by (symmetry; apply Z.ltb_ge; lia).
    rewrite Hget. reflexivity.
  - intros cfg reg id elapsed resp del iso He Hget. unfold destruction_tick.
    replace (destruction_maxWaitTime <? elapsed) with false by (symmetry; apply Z.ltb_ge; lia).
    rewrite Hget. reflexivity.
  - intros cfg reg t now prov iso x e Hid Ht He Hle Hget.
    rewrite (check_timer_expired cfg reg t now prov iso x e Hid Ht He Hle), Hget. reflexivity.
Qed.

(** Witness: the host detected through the metadata service, and a
    listing that contains it and an instance of the excluded snapshot. *)
Lemma getInstance_self_protection_witness :
  getInstance host_cfg "host-1" (PGetOk (sample_instance "active" "running" "10.0.0.1")) = GIRet JNull /\
  getInstance host_cfg "inst-2"
    (PGetOk (JObj [("id", JStr "inst-2"); ("snapshot_id", JStr "snap-host")])) = GIRet JNull /\
  listInstances host_cfg
    [[("id", JStr "host-1")]; [("id", JStr "inst-2"); ("snapshot_id", JStr "snap-host")];
     [("id", JStr "inst-3")]] = [[("id", JStr "inst-3")]] /\
  pollStatus_tick host_cfg [] "host-1" 10000 (PGetOk (sample_instance "active" "running" "10.0.0.1"))
    true true 180 0 "T" = ([], [CGetInstance (JStr "host-1")], [FUnavailable], PollStop).
Proof.
  destruct getInstance_self_protection as (H1 & H2 & _ & _ & H5 & _).
  split; [|split; [|split]].
  - apply H1; [left; reflexivity | reflexivity].
  - apply (H2 host_cfg "inst-2" _ "snap-host"); [reflexivity | discriminate | reflexivity | reflexivity].
  - reflexivity.
  - apply H5; [unfold status_maxWaitTime; lia |].
    apply H1; [left; reflexivity | reflexivity].
Defined.

(* ------------------------------------------------------------------ *)
(** ** C2: the expiry branch of the self-destruct sweep *)

Lemma js_is_str_eq : forall v s, js_is_str v s = true -> v = JStr s.
Proof.
  intros v s H; destruct v; try discriminate. simpl in H. apply String.eqb_eq in H. subst. reflexivity.
Qed.

Lemma find_in : forall {A} (p : A -> bool) l r, find p l = Some r -> In r l.
Proof.
  intros A p l; induction l as [|y t IH]; intros r H; simpl in H; [discriminate|].
  destruct (p y); [inversion H; left; reflexivity | right; apply IH; exact H].
Qed.

Lemma destroyed_record_neq : forall r iso, is_active r = true -> r <> destroyed_record r iso.
Proof.
  intros r iso Ha E. assert (Hs : obj_get r "status" = JStr "destroyed").
  { rewrite E at 1. unfold destroyed_record. rewrite updated_get_1. reflexivity. }
  unfold is_active in Ha. rewrite Hs in Ha. discriminate.
Qed.

(** A sweep step on a record with another id leaves the record of [x]. *)
Lemma check_other_reg : forall cfg reg t now prov iso x,
  obj_get t "id" <> JStr x ->
  InstanceState.getInstance (fst (fst (fst (check_timer_record cfg reg t now prov iso)))) x =
  InstanceState.getInstance reg x.
Proof.
  intros cfg reg t now prov iso x Hid. unfold check_timer_record, mark_destroyed.
  remember (obj_get t "id") as idv eqn:Hidv.
  repeat match goal with |- context [match ?m with _ => _ end] => destruct m eqn:? end;
    cbn [fst]; try reflexivity;
    try (apply update_other; [intros ->; congruence | apply not_in_id_1; discriminate]);
    match goal with
    | H : record_warning _ _ _ _ _ _ = Some _ |- _ =>
        unfold record_warning in H; destruct (js_get _ "warningsSent"); inversion H; subst;
        apply update_other; [intros ->; congruence | apply not_in_id_1; discriminate]
    end.
Qed.

Lemma sweep_other : forall cfg snap reg now prov iso x,
  (forall t, In t snap -> obj_get t "id" <> JStr x) ->
  InstanceState.getInstance (fst (fst (sweep cfg snap reg now prov iso))) x =
  InstanceState.getInstance reg x.
Proof.
  intros cfg snap; induction snap as [|t rest IH]; intros reg now prov iso x Hs; [reflexivity|].
  cbn [sweep]. pose proof (check_other_reg cfg reg t now prov iso x (Hs t (or_introl eq_refl))) as Ht.
  destruct (check_timer_record cfg reg t now prov iso) as [[[reg1 c1] s1] ab]. cbn [fst] in Ht.
  destruct ab; [exact Ht|].
  pose proof (IH reg1 now prov iso x (fun t0 H => Hs t0 (or_intror H))) as Hr.
  destruct (sweep cfg rest reg1 now prov iso) as [[reg2 c2] s2]. cbn [fst] in *. congruence.
Qed.

(** The sweep over [a ++ r :: b], [r] the only record with id [x], by the
    provider's answers for [x]. *)
Lemma sweep_expired_cases : forall cfg now prov iso x r e b a reg,
  obj_get r "id" = JStr x -> truthy (obj_get r "selfDestructTimer") = true ->
  js_get (obj_get r "selfDestructTimer") "expiresAt" = JNum e -> e <= now ->
  (forall t, In t a -> obj_get t "id" <> JStr x) ->
  (forall t, In t b -> obj_get t "id" <> JStr x) ->
  InstanceState.getInstance reg x = Some r ->
  match getInstance cfg x (fst (prov x)) with
  | GIThrow _ =>
      InstanceState.getInstance (fst (fst (sweep cfg (a ++ r :: b) reg now prov iso))) x = Some r
  | GIRet v =>
      if truthy v then
        match snd (prov x) with
        | Some _ =>
            InstanceState.getInstance (fst (fst (sweep cfg (a ++ r :: b) reg now prov iso))) x = Some r
        | None =>
            InstanceState.getInstance (fst (fst (sweep cfg (a ++ r :: b) reg now prov iso))) x = Some r \/
            (InstanceState.getInstance (fst (fst (sweep cfg (a ++ r :: b) reg now prov iso))) x =
               Some (destroyed_record r iso) /\
             In (CDeleteInstance (JStr x)) (snd (fst (sweep cfg (a ++ r :: b) reg now prov iso))))
        end
      else
        InstanceState.getInstance (fst (fst (sweep cfg (a ++ r :: b) reg now prov iso))) x = Some r \/
        InstanceState.getInstance (fst (fst (sweep cfg (a ++ r :: b) reg now prov iso))) x =
          Some (destroyed_record r iso)
  end.
Proof.
  intros cfg now prov iso x r e b a. induction a as [|t a IH]; intros reg Hid Ht He Hle Ha Hb Hr.
  - cbn [app sweep]. rewrite (check_timer_expired cfg reg r now prov iso x e Hid Ht He Hle).
    assert (Hmd : ~ In "id" (map fst [("selfDestructTimer", JNull)])) by (apply not_in_id_1; discriminate).
    destruct (getInstance cfg x (fst (prov x))) as [s|v].
    + pose proof (sweep_other cfg b reg now prov iso x Hb) as Hs.
      destruct (sweep cfg b reg now prov iso) as [[reg2 c2] s2]. cbn [fst] in *. congruence.
    + destruct (truthy v); cbn [negb].
      * destruct (snd (prov x)).
        -- pose proof (sweep_other cfg b reg now prov iso x Hb) as Hs.
           destruct (sweep cfg b reg now prov iso) as [[reg2 c2] s2]. cbn [fst] in *. congruence.
        -- pose proof (sweep_other cfg b (mark_destroyed reg x iso) now prov iso x Hb) as Hs.
           destruct (sweep cfg b (mark_destroyed reg x iso) now prov iso) as [[reg2 c2] s2].
           cbn [fst snd] in *. right. split.
           ++ rewrite Hs. unfold mark_destroyed. apply update_same; assumption.
           ++ simpl. auto.
      * pose proof (sweep_other cfg b (mark_destroyed reg x iso) now prov iso x Hb) as Hs.
        destruct (sweep cfg b (mark_destroyed reg x iso) now prov iso) as [[reg2 c2] s2].
        cbn [fst] in *. right. rewrite Hs. unfold mark_destroyed. apply update_same; assumption.
  - cbn [app sweep].
    pose proof (check_other_reg cfg reg t now prov iso x (Ha t (or_introl eq_refl))) as Hc.
    destruct (check_timer_record cfg reg t now prov iso) as [[[reg1 c1] s1] ab]. cbn [fst] in Hc.
    rewrite Hr in Hc.
    destruct ab.
    + cbn [fst]. destruct (getInstance cfg x (fst (prov x))); [exact Hc|].
      destruct (truthy v); [destruct (snd (prov x)); [exact Hc | left; exact Hc] | left; exact Hc].
    + specialize (IH reg1 Hid Ht He Hle (fun t0 H => Ha t0 (or_intror H)) Hb Hc).
      destruct (sweep cfg (a ++ r :: b) reg1 now prov iso) as [[reg2 c2] s2]. cbn [fst snd] in *.
      destruct (getInstance cfg x (fst (prov x))); [exact IH|].
      destruct (truthy v); [destruct (snd (prov x)); [exact IH|] | exact IH].
      destruct IH as [IH|[IH1 IH2]]; [left; exact IH | right; split; [exact IH1 | apply in_or_app; right; exact IH2]].
Qed.

(** C2: take a record [r] of the registry (ids unique, as [trackInstance]
    keeps them), active, whose timer expired at [e <= now].  After a sweep
    [checkTimers] the record is either unchanged or marked destroyed with
    its timer cleared; it is marked only when [getInstance] answered
    without an instance or the instance was listed and its delete call
    succeeded; when the GET throws (whatever the status, 404 included) or
    the delete throws, the record is unchanged, still active, and the next
    sweep's step on it issues the existence check again. *)
Theorem checkTimers_expired_record : forall cfg reg now prov iso x r e,
  NoDup (map (fun i => obj_get i "id") reg) ->
  InstanceState.getInstance reg x = Some r -> is_active r = true ->
  truthy (obj_get r "selfDestructTimer") = true ->
  js_get (obj_get r "selfDestructTimer") "expiresAt" = JNum e -> e <= now ->
  let '(reg', calls, _) := checkTimers cfg reg now prov iso in
  (InstanceState.getInstance reg' x = Some r \/
   InstanceState.getInstance reg' x = Some (destroyed_record r iso)) /\
  (InstanceState.getInstance reg' x = Some (destroyed_record r iso) ->
     (exists v, getInstance cfg x (fst (prov x)) = GIRet v /\ truthy v = false) \/
     (exists v, getInstance cfg x (fst (prov x)) = GIRet v /\ truthy v = true /\
        snd (prov x) = None /\ In (CDeleteInstance (JStr x)) calls)) /\
  ((forall v, getInstance cfg x (fst (prov x)) = GIRet v -> truthy v = true /\ snd (prov x) <> None) ->
     InstanceState.getInstance reg' x = Some r /\ In r (getActiveInstances reg') /\
     forall now' reg2 prov2 iso2, e <= now' ->
       exists cs, snd (fst (fst (check_timer_record cfg reg2 r now' prov2 iso2))) =
                  CGetInstance (JStr x) :: cs).
Proof.
  intros cfg reg now prov iso x r e Hnd Hr Ha Ht He Hle.
  unfold InstanceState.getInstance in Hr.
  destruct (find_split _ _ _ Hr) as (a0 & b0 & Hreg & Ha0 & Hrx).
  assert (Hid : obj_get r "id" = JStr x) by (apply js_is_str_eq; exact Hrx).
  assert (Hb0 : forall t, In t b0 -> obj_get t "id" <> JStr x).
  { intros t Hin Ht'. subst reg. rewrite map_app in Hnd. cbn [map] in Hnd.
    apply NoDup_remove_2 in Hnd. apply Hnd. apply in_or_app. right.
    rewrite Hid, <- Ht'. apply (in_map (fun i : obj => obj_get i "id")). exact Hin. }
  assert (Ha0' : forall t, In t a0 -> obj_get t "id" <> JStr x).
  { intros t Hin Ht'. specialize (Ha0 t Hin). unfold has_id in Ha0. rewrite Ht' in Ha0.
    simpl in Ha0. rewrite String.eqb_refl in Ha0. discriminate. }
  assert (Hsnap : getActiveInstances reg =
                  (filter is_active a0 ++ r :: filter is_active b0)%list).
  { unfold getActiveInstances. subst reg. rewrite filter_app. simpl. rewrite Ha. reflexivity. }
  pose proof (sweep_expired_cases cfg now prov iso x r e (filter is_active b0) (filter is_active a0) reg
                Hid Ht He Hle
                (fun t H => Ha0' t (proj1 (proj1 (filter_In _ _ _) H)))
                (fun t H => Hb0 t (proj1 (proj1 (filter_In _ _ _) H))) Hr) as Hc.
  rewrite <- Hsnap in Hc. unfold checkTimers.
  destruct (sweep cfg (getActiveInstances reg) reg now prov iso) as [[reg' calls] sends].
  cbn [fst snd] in Hc.
  assert (Hne := destroyed_record_neq r iso Ha).
  assert (Hact : InstanceState.getInstance reg' x = Some r -> In r (getActiveInstances reg')).
  { intros Hg. unfold getActiveInstances. apply filter_In. split; [|exact Ha].
    exact (find_in _ _ _ Hg). }
  assert (Hnext : forall now' reg2 prov2 iso2, e <= now' ->
            exists cs, snd (fst (fst (check_timer_record cfg reg2 r now' prov2 iso2))) =
                       CGetInstance (JStr x) :: cs).
  { intros now' reg2 prov2 iso2 Hle'.
    rewrite (check_timer_expired cfg reg2 r now' prov2 iso2 x e Hid Ht He Hle').
    case_matches; eexists; reflexivity. }
  destruct (getInstance cfg x (fst (prov x))) as [st0|v] eqn:Hg.
  - split; [left; exact Hc|]. split.
    + intros H. rewrite Hc in H. inversion H. contradiction.
    + intros _. auto.
  - destruct (truthy v) eqn:Htv.
    + destruct (snd (prov x)) as [d|] eqn:Hd.
      * split; [left; exact Hc|]. split.
        -- intros H. rewrite Hc in H. inversion H. contradiction.
        -- intros _. auto.
      * split; [destruct Hc as [Hc|[Hc _]]; auto|]. split.
        -- intros H. right. exists v. split; [reflexivity|]. split; [exact Htv|]. split; [reflexivity|].
           destruct Hc as [Hc|[_ Hc]]; [|exact Hc].
           rewrite Hc in H. inversion H. contradiction.
        -- intros Hf. destruct (Hf v eq_refl) as [_ Hf']. congruence.
    + split; [exact Hc|]. split.
      * intros _. left. exists v. auto.
      * intros Hf. destruct (Hf v eq_refl) as [Hf' _]. congruence.
Qed.

(** Witness: "inst-1" expired at 10 800 000 ms; the sweep at 20 000 000 ms
    finds it listed and its delete rejected. *)
Lemma checkTimers_expired_record_witness :
  let '(reg', calls, _) := checkTimers sample_cfg sample_expired_reg 20000000 sample_failing_delete "T2" in
  (InstanceState.getInstance reg' "inst-1" = Some sample_expired_record \/
   InstanceState.getInstance reg' "inst-1" = Some (destroyed_record sample_expired_record "T2")) /\
  (InstanceState.getInstance reg' "inst-1" = Some (destroyed_record sample_expired_record "T2") ->
     (exists v, getInstance sample_cfg "inst-1" (fst (sample_failing_delete "inst-1")) = GIRet v /\
        truthy v = false) \/
     (exists v, getInstance sample_cfg "inst-1" (fst (sample_failing_delete "inst-1")) = GIRet v /\
        truthy v = true /\ snd (sample_failing_delete "inst-1") = None /\
        In (CDeleteInstance (JStr "inst-1")) calls)) /\
  ((forall v, getInstance sample_cfg "inst-1" (fst (sample_failing_delete "inst-1")) = GIRet v ->
      truthy v = true /\ snd (sample_failing_delete "inst-1") <> None) ->
     InstanceState.getInstance reg' "inst-1" = Some sample_expired_record /\
     In sample_expired_record (getActiveInstances reg') /\
     forall now' reg2 prov2 iso2, 10800000 <= now' ->
       exists cs, snd (fst (fst (check_timer_record sample_cfg reg2 sample_expired_record now' prov2 iso2))) =
                  CGetInstance (JStr "inst-1") :: cs).
Proof.
  apply (checkTimers_expired_record sample_cfg sample_expired_reg 20000000 sample_failing_delete "T2"
           "inst-1" sample_expired_record 10800000);
    [vm_compute; repeat constructor; simpl; intuition discriminate
    | reflexivity | reflexivity | reflexivity | reflexivity | lia].
Defined.

(* ------------------------------------------------------------------ *)
(** ** C3: the panel render guard *)

Lemma panel_request_inv : forall s b, panel_inv s -> panel_inv (panel_request s b).
Proof.
  intros [ip pd r st sc w] b H; unfold panel_inv, panel_request in *; simpl in *.
  destruct H as [[-> ->]|[-> ->]]; simpl; [|destruct b]; simpl; auto.
Qed.

Lemma panel_step_inv : forall s e s', panel_inv s -> panel_step s e = Some s' -> panel_inv s'.
Proof.
  intros [ip pd r st sc w] e s' H Hs. unfold panel_inv in H; simpl in H.
  destruct e as [b| | |]; simpl in Hs.
  - inversion Hs; subst. apply panel_request_inv. unfold panel_inv; simpl; exact H.
  - destruct w as [|w]; [discriminate|].
    destruct ip; inversion Hs; subst; unfold panel_inv; simpl;
      destruct H as [[-> ?]|[-> ?]]; try discriminate; auto.
  - destruct r as [|r]; [discriminate|]. inversion Hs; subst. unfold panel_inv; simpl.
    left. destruct H as [[? _]|[? _]]; [discriminate | split; [lia | reflexivity]].
  - destruct sc as [|k]; [discriminate|]. inversion Hs; subst.
    apply panel_request_inv. unfold panel_inv; simpl; exact H.
Qed.

Lemma panel_run_inv : forall es s s', panel_inv s -> panel_run s es = Some s' -> panel_inv s'.
Proof.
  induction es as [|e es IH]; intros s s' H Hr; simpl in Hr.
  - inversion Hr; subst; exact H.
  - destruct (panel_step s e) as [s1|] eqn:E; [|discriminate].
    exact (IH s1 s' (panel_step_inv s e s1 H E) Hr).
Qed.

Lemma panel_run_app : forall l1 l2 s,
  panel_run s (l1 ++ l2) =
  match panel_run s l1 with Some s' => panel_run s' l2 | None => None end.
Proof.
  induction l1 as [|e l1 IH]; intros l2 s; simpl; [reflexivity|].
  destruct (panel_step s e); [apply IH | reflexivity].
Qed.

Lemma panel_requests_coalesce : forall N ip pd st,
  panelUpdateInProgress (Build_PanelState ip pd 1 st 0 0) = true -> (1 <= N)%nat ->
  panel_run (Build_PanelState ip pd 1 st 0 0) (repeat (Request false) N) =
  Some (Build_PanelState true true 1 st 0 0).
Proof.
  intros N ip pd st Hip HN. simpl in Hip. subst ip.
  destruct N as [|N]; [lia|]. clear HN. revert pd.
  induction N as [|N IH]; intros pd; [reflexivity|].
  change (panel_run (Build_PanelState true true 1 st 0 0) (repeat (Request false) (S N)) =
          Some (Build_PanelState true true 1 st 0 0)).
  apply IH.
Qed.

Lemma panel_requests_pending : forall N pd st w,
  panel_run (Build_PanelState true pd 1 st 0 w) (repeat (Request false) N) =
  Some (Build_PanelState true (match N with O => pd | S _ => true end) 1 st 0 w).
Proof.
  induction N as [|N IH]; intros pd st w; [reflexivity|].
  simpl. unfold panel_request. simpl. rewrite IH. destruct N; reflexivity.
Qed.

(** C3 (counterexample): a render runs; one request arrives during it,
    from an interaction; its 100 ms wait ends while the render still runs,
    so it is skipped.  When the render finishes nothing is pending or
    queued: no additional render.  And with one periodic request and one
    interaction request, the interaction render starts after the first
    render and the queued refresh then re-queues itself: two additional
    renders. *)
Lemma panel_interaction_counterexample :
  panel_run panel_init [Request false; Request true; Recheck; Finish] =
    Some (Build_PanelState false false 0 1 0 0) /\
  panel_run panel_init
    [Request false; Request false; Request true; Finish; Recheck; Fire; Finish; Fire; Finish] =
    Some (Build_PanelState false false 0 3 0 0).
Proof. split; reflexivity. Qed.

(** C3 (amended): in every state reachable from the initial one, at most
    one render runs and the lock is held exactly while it runs; for every
    [N >= 1] requests without an interaction arriving during a render, the
    end of that render queues exactly one deferred call, which runs
    exactly one additional render, after which nothing is pending or
    queued; a request with an interaction whose 100 ms wait ends while
    the render still runs is dropped, leaving the state as it was; and
    when such a request, among [N1 + N2 >= 1] requests without an
    interaction, ends its wait after the render, it starts a render of
    its own, and the queued call runs one more render, whether it fires
    after or during that render; then nothing is pending or queued. *)
Theorem panel_render_guard : forall es s N s0 N1 N2,
  (panel_run panel_init es = Some s ->
     (running s <= 1)%nat /\ (panelUpdateInProgress s = true <-> running s = 1%nat)) /\
  (panelUpdateInProgress s0 = true -> running s0 = 1%nat -> scheduled s0 = 0%nat ->
   waiting s0 = 0%nat -> (1 <= N)%nat ->
     panel_run s0 (repeat (Request false) N ++ [Finish]) =
       Some (Build_PanelState false true 0 (started s0) 1 0) /\
     panel_run s0 (repeat (Request false) N ++ [Finish; Fire; Finish]) =
       Some (Build_PanelState false false 0 (S (started s0)) 0 0)) /\
  (panelUpdateInProgress s0 = true -> panel_run s0 [Request true; Recheck] = Some s0) /\
  (panelUpdateInProgress s0 = true -> running s0 = 1%nat -> scheduled s0 = 0%nat ->
   waiting s0 = 0%nat -> (1 <= N1 + N2)%nat ->
   let es0 := (repeat (Request false) N1 ++ Request true :: repeat (Request false) N2 ++
               [Finish; Recheck])%list in
     panel_run s0 es0 = Some (Build_PanelState true false 1 (S (started s0)) 1 0) /\
     panel_run s0 (es0 ++ [Finish; Fire; Finish]) =
       Some (Build_PanelState false false 0 (S (S (started s0))) 0 0) /\
     panel_run s0 (es0 ++ [Fire; Finish; Fire; Finish]) =
       Some (Build_PanelState false false 0 (S (S (started s0))) 0 0)).
Proof.
  intros es s N s0 N1 N2. split; [|split; [|split]].
  - intros Hr. assert (Hi : panel_inv s)
      by (apply (panel_run_inv es panel_init s); [left; split; reflexivity | exact Hr]).
    destruct Hi as [[-> ->]|[-> ->]]; split; try lia; split; intros; congruence.
  - destruct s0 as [ip pd r st sc w]; simpl. intros Hip Hr Hsc Hw HN. subst.
    rewrite !panel_run_app, panel_requests_coalesce by (simpl; auto).
    split; reflexivity.
  - destruct s0 as [ip pd r st sc w]; simpl. intros ->. reflexivity.
  - destruct s0 as [ip pd r st sc w]; simpl. intros Hip Hr Hsc Hw HN. subst.
    assert (Hes : panel_run (Build_PanelState true pd 1 st 0 0)
              (repeat (Request false) N1 ++ Request true :: repeat (Request false) N2 ++
               [Finish; Recheck]) = Some (Build_PanelState true false 1 (S st) 1 0)).
    { rewrite panel_run_app, panel_requests_pending. simpl. unfold panel_request. simpl.
      rewrite panel_run_app, panel_requests_pending.
      destruct N1, N2; simpl in HN; try lia; reflexivity. }
    cbv zeta. split; [exact Hes|]. split; rewrite panel_run_app, Hes; reflexivity.
Qed.

(** Witness: a render in progress and three periodic refresh requests;
    then one periodic request and one interaction request whose wait ends
    after the render. *)
Lemma panel_render_guard_witness :
  ((running (Build_PanelState true false 1 1 0 0) <= 1)%nat /\
   (panelUpdateInProgress (Build_PanelState true false 1 1 0 0) = true <->
    running (Build_PanelState true false 1 1 0 0) = 1%nat)) /\
  (panel_run (Build_PanelState true false 1 1 0 0) (repeat (Request false) 3 ++ [Finish]) =
     Some (Build_PanelState false true 0 1 1 0) /\
   panel_run (Build_PanelState true false 1 1 0 0) (repeat (Request false) 3 ++ [Finish; Fire; Finish]) =
     Some (Build_PanelState false false 0 2 0 0)) /\
  panel_run (Build_PanelState true false 1 1 0 0) [Request true; Recheck] =
    Some (Build_PanelState true false 1 1 0 0) /\
  (panel_run (Build_PanelState true false 1 1 0 0) [Request false; Request true; Finish; Recheck] =
     Some (Build_PanelState true false 1 2 1 0) /\
   panel_run (Build_PanelState true false 1 1 0 0)
     [Request false; Request true; Finish; Recheck; Finish; Fire; Finish] =
     Some (Build_PanelState false false 0 3 0 0) /\
   panel_run (Build_PanelState true false 1 1 0 0)
     [Request false; Request true; Finish; Recheck; Fire; Finish; Fire; Finish] =
     Some (Build_PanelState false false 0 3 0 0)).
Proof.
  destruct (panel_render_guard [Request false] (Build_PanelState true false 1 1 0 0) 3
              (Build_PanelState true false 1 1 0 0) 1 0) as (H1 & H2 & H3 & H4).
  split; [apply H1; reflexivity|].
  split; [apply H2; simpl; first [reflexivity | lia]|].
  split; [apply H3; reflexivity|].
  apply H4; simpl; first [reflexivity | lia].
Defined.

(* ------------------------------------------------------------------ *)
(** ** [formatRemainingTime] read back *)


Lemma split_on_digits_app : forall d rest,
  split_on ":" (NilEmpty.string_of_uint d ++ ":" ++ rest) =
  NilEmpty.string_of_uint d :: split_on ":" rest.
Proof. induction d; intros; simpl; try reflexivity; specialize (IHd rest); simpl in IHd; rewrite IHd; reflexivity. Qed.

Lemma split_on_digits_end : forall d,
  split_on ":" (NilEmpty.string_of_uint d) = [NilEmpty.string_of_uint d].
Proof. induction d; simpl; try reflexivity; rewrite IHd; reflexivity. Qed.

Lemma padStart2_digits : forall d, exists d',
  padStart2 (NilEmpty.string_of_uint d) = NilEmpty.string_of_uint d' /\ N.of_uint d' = N.of_uint d.
Proof.
  intros d. unfold padStart2.
  destruct (String.length (NilEmpty.string_of_uint d)) as [|[|]].
  - exists (Decimal.D0 (Decimal.D0 d)); split; reflexivity.
  - exists (Decimal.D0 d); split; reflexivity.
  - exists d; split; reflexivity.
Qed.

Lemma dec_to_z_digits : forall d, dec_to_z (NilEmpty.string_of_uint d) = Some (Z.of_N (N.of_uint d)).
Proof. intros d. unfold dec_to_z. rewrite NilEmpty.usu. reflexivity. Qed.

Lemma z_to_dec_digits : forall n, 0 <= n ->
  exists d, z_to_dec n = NilEmpty.string_of_uint d /\ Z.of_N (N.of_uint d) = n.
Proof.
  intros n Hn. exists (N.to_uint (Z.to_N n)). split; [reflexivity|].
  rewrite DecimalN.Unsigned.of_to. apply Z2N.id; exact Hn.
Qed.

Lemma padded_digits : forall n, 0 <= n ->
  exists d, padStart2 (z_to_dec n) = NilEmpty.string_of_uint d /\ Z.of_N (N.of_uint d) = n.
Proof.
  intros n Hn. destruct (z_to_dec_digits n Hn) as [d [Hd Hv]]. rewrite Hd.
  destruct (padStart2_digits d) as [d' [Hp Hv']]. exists d'. rewrite Hp, Hv'. auto.
Qed.

(** X1: Reading back the time that [formatRemainingTime] displays ([h:mm:ss] or [m:ss]) gives the whole seconds remaining, and 0 once the timer has expired. *)
Theorem formatRemainingTime_roundtrip : forall expiresAt now,
  parseRemainingTime (formatRemainingTime expiresAt now) = Some (Z.max 0 ((expiresAt - now) / 1000)).
Proof.
  intros e now. unfold formatRemainingTime.
  destruct (e - now <=? 0) eqn:Hle.
  - apply Z.leb_le in Hle.
    assert ((e - now) / 1000 <= 0) by (apply Z.div_le_upper_bound; lia).
    replace (Z.max 0 ((e - now) / 1000)) with 0 by lia. reflexivity.
  - apply Z.leb_gt in Hle.
    set (T := (e - now) / 1000).
    assert (HT : 0 <= T) by (apply Z.div_pos; lia).
    assert (H1 := Z.mod_pos_bound T 3600 ltac:(lia)).
    assert (H2 := Z.div_mod T 3600 ltac:(lia)).
    assert (Hm : 0 <= (T mod 3600) / 60) by (apply Z.div_pos; lia).
    assert (Hs := Z.mod_pos_bound T 60 ltac:(lia)).
    assert (Hs' : T mod 60 = (T mod 3600) mod 60).
    { rewrite H2 at 1. replace (3600 * (T / 3600) + T mod 3600) with (T mod 3600 + (60 * (T / 3600)) * 60) by lia.
      apply Z_mod_plus_full. }
    assert (H3 := Z.div_mod (T mod 3600) 60 ltac:(lia)).
    destruct (padded_digits _ Hm) as [dm [Edm Vdm]].
    destruct (padded_digits _ (proj1 Hs)) as [ds [Eds Vds]].
    destruct (0 <? T / 3600) eqn:Hh.
    + apply Z.ltb_lt in Hh.
      destruct (z_to_dec_digits (T / 3600) ltac:(lia)) as [dh [Edh Vdh]].
      rewrite Edh, Edm, Eds. unfold parseRemainingTime.
      rewrite split_on_digits_app, split_on_digits_app, split_on_digits_end.
      rewrite !dec_to_z_digits, Vdh, Vdm, Vds. f_equal. lia.
    + apply Z.ltb_ge in Hh.
      destruct (z_to_dec_digits _ Hm) as [dm' [Edm' Vdm']].
      rewrite Edm', Eds. unfold parseRemainingTime.
      rewrite split_on_digits_app, split_on_digits_end.
      rewrite !dec_to_z_digits, Vdm', Vds. f_equal. lia.
Qed.

(* ------------------------------------------------------------------ *)
(** ** Snapshot names and permissions *)

Lemma find_none_existsb : forall {A} (p : A -> bool) l, find p l = None -> existsb p l = false.
Proof. intros A p l. induction l as [|a l IH]; simpl; [reflexivity|]. destruct (p a); [discriminate| exact IH]. Qed.

Lemma existsb_find_none : forall {A} (p : A -> bool) l, existsb p l = false -> find p l = None.
Proof. intros A p l. induction l as [|a l IH]; simpl; [reflexivity|]. destruct (p a); [discriminate| exact IH]. Qed.

Lemma find_some_in : forall {A} (p : A -> bool) l x, find p l = Some x -> In x l /\ p x = true.
Proof.
  intros A p l x. induction l as [|a l IH]; simpl; [discriminate|].
  destruct (p a) eqn:E; [intros H; injection H as <-; auto| intros H; destruct (IH H); auto].
Qed.

Lemma existsb_map_fn : forall {A B} (p : B -> bool) (f : A -> B) l,
  existsb p (map f l) = existsb (fun x => p (f x)) l.
Proof. intros A B p f l. induction l as [|a l IH]; simpl; [reflexivity| rewrite IH; reflexivity]. Qed.

Lemma list_prefix_length : forall w l, list_prefix w l = true -> (length w <= length l)%nat.
Proof.
  induction w as [|a w IH]; intros [|b l] H; simpl in *; try discriminate; try lia.
  apply andb_true_iff in H as [_ H]. specialize (IH l H). lia.
Qed.

Lemma list_prefix_app : forall w a b, list_prefix w a = true -> list_prefix w (a ++ b) = true.
Proof.
  induction w as [|c w IH]; intros [|d a] b H; simpl in *; try reflexivity; try discriminate.
  apply andb_true_iff in H as [H1 H2]. rewrite H1, (IH a b H2). reflexivity.
Qed.

Lemma no_lead_app : forall seqs a b, no_lead seqs (a ++ b) -> no_lead seqs a.
Proof.
  unfold no_lead. intros seqs a b. induction seqs as [|w seqs IH]; simpl; [reflexivity|].
  intros H. apply orb_false_iff in H as [H1 H2]. rewrite (IH H2), orb_false_r.
  destruct (list_prefix w a) eqn:E; [|reflexivity].
  rewrite (list_prefix_app w a b E) in H1. exact H1.
Qed.

(** Every white-space encoding starts with a byte that is not printable
    ASCII, read forwards or backwards. *)
Lemma js_ws_heads : forall w, In w js_ws_seqs -> exists b t, w = b :: t /\ visible b = false.
Proof.
  intros w H.
  assert (Hf : forallb (fun w => match w with b :: _ => negb (visible b) | [] => false end)
                 js_ws_seqs = true) by reflexivity.
  rewrite forallb_forall in Hf. specialize (Hf w H).
  destruct w as [|b t]; [discriminate|]. exists b, t. split; [reflexivity|]. apply negb_true_iff, Hf.
Qed.

Lemma js_ws_rev_heads : forall w, In w (map (@rev ascii) js_ws_seqs) ->
  exists b t, w = b :: t /\ visible b = false.
Proof.
  intros w H.
  assert (Hf : forallb (fun w => match w with b :: _ => negb (visible b) | [] => false end)
                 (map (@rev ascii) js_ws_seqs) = true) by reflexivity.
  rewrite forallb_forall in Hf. specialize (Hf w H).
  destruct w as [|b t]; [discriminate|]. exists b, t. split; [reflexivity|]. apply negb_true_iff, Hf.
Qed.

Lemma no_lead_nil : forall seqs,
  (forall w, In w seqs -> exists b t, w = b :: t /\ visible b = false) -> no_lead seqs [].
Proof.
  intros seqs Hs. unfold no_lead. destruct (existsb _ _) eqn:E; [|reflexivity].
  apply existsb_exists in E as [w [Hw Hp]]. destruct (Hs w Hw) as [b [t [-> _]]]. discriminate.
Qed.

Lemma no_lead_visible : forall seqs c l,
  (forall w, In w seqs -> exists b t, w = b :: t /\ visible b = false) ->
  visible c = true -> no_lead seqs (c :: l).
Proof.
  intros seqs c l Hs Hc. unfold no_lead. destruct (existsb _ _) eqn:E; [|reflexivity].
  apply existsb_exists in E as [w [Hw Hp]]. destruct (Hs w Hw) as [b [t [-> Hb]]].
  simpl in Hp. apply andb_true_iff in Hp as [Hp _]. apply Ascii.eqb_eq in Hp. subst. congruence.
Qed.

Lemma drop_seqs_no_lead : forall seqs n l, no_lead seqs l -> drop_seqs seqs n l = l.
Proof.
  intros seqs [|n] l H; simpl; [reflexivity|]. rewrite (existsb_find_none _ _ H). reflexivity.
Qed.

Lemma drop_seqs_lead : forall seqs n l,
  (forall w, In w seqs -> exists b t, w = b :: t /\ visible b = false) ->
  (length l <= n)%nat -> no_lead seqs (drop_seqs seqs n l).
Proof.
  intros seqs n. induction n as [|n IH]; intros l Hs Hl; simpl.
  - destruct l; [apply no_lead_nil, Hs| simpl in Hl; lia].
  - destruct (find (fun w => list_prefix w l) seqs) as [w|] eqn:E.
    + apply find_some_in in E as [Hw Hp]. apply IH; [exact Hs|].
      rewrite length_skipn. destruct (Hs w Hw) as [b [t [-> _]]].
      apply list_prefix_length in Hp. simpl in *. lia.
    + apply find_none_existsb, E.
Qed.

Lemma drop_seqs_suffix : forall seqs n l, exists p, l = (p ++ drop_seqs seqs n l)%list.
Proof.
  intros seqs n. induction n as [|n IH]; intros l; simpl; [exists []; reflexivity|].
  destruct (find _ _) as [w|]; [|exists []; reflexivity].
  destruct (IH (skipn (length w) l)) as [p Hp]. exists (firstn (length w) l ++ p)%list.
  rewrite <- app_assoc, <- Hp. symmetry. apply firstn_skipn.
Qed.

Lemma drop_ws_space : forall l, drop_ws (" "%char :: l) = drop_ws l.
Proof. reflexivity. Qed.

Lemma trim_no_lead : forall l, no_lead js_ws_seqs l -> no_lead (map (@rev ascii) js_ws_seqs) (rev l) ->
  trim (string_of_list_ascii l) = string_of_list_ascii l.
Proof.
  intros l H1 H2. unfold trim, drop_ws, drop_ws_rev. rewrite list_ascii_of_string_of_list_ascii.
  rewrite (drop_seqs_no_lead _ _ l H1), (drop_seqs_no_lead _ _ _ H2), rev_involutive. reflexivity.
Qed.

Lemma trim_ends : forall s, starts_with_ws (trim s) = false /\ ends_with_ws (trim s) = false.
Proof.
  intros s. unfold starts_with_ws, ends_with_ws, trim, drop_ws_rev.
  set (m := drop_ws (list_ascii_of_string s)).
  set (R := map (@rev ascii) js_ws_seqs).
  set (r := drop_seqs R (length (rev m)) (rev m)).
  assert (Hm : no_lead js_ws_seqs m) by (unfold m, drop_ws; apply drop_seqs_lead; [exact js_ws_heads| lia]).
  assert (Hr : no_lead R r) by (unfold r; apply drop_seqs_lead; [exact js_ws_rev_heads| lia]).
  destruct (drop_seqs_suffix R (length (rev m)) (rev m)) as [p Hp]. fold r in Hp.
  assert (Hmr : m = (rev r ++ rev p)%list).
  { rewrite <- rev_app_distr, <- Hp, rev_involutive. reflexivity. }
  rewrite list_ascii_of_string_of_list_ascii, rev_involutive. split.
  - rewrite Hmr in Hm. exact (no_lead_app _ _ _ Hm).
  - unfold no_lead, R in Hr. rewrite existsb_map_fn in Hr. exact Hr.
Qed.

Lemma plain_trim : forall s, plain_id s = true -> trim s = s.
Proof.
  intros s H. rewrite <- (string_of_list_ascii_of_string s). apply trim_no_lead.
  - unfold plain_id in H. destruct (list_ascii_of_string s) as [|c l]; [apply no_lead_nil, js_ws_heads|].
    simpl in H. apply andb_true_iff in H as [H _]. apply andb_true_iff in H as [H _].
    apply no_lead_visible; [exact js_ws_heads| exact H].
  - unfold plain_id in H. rewrite forallb_forall in H.
    destruct (rev (list_ascii_of_string s)) as [|c l] eqn:E; [apply no_lead_nil, js_ws_rev_heads|].
    assert (Hin : In c (list_ascii_of_string s)) by (apply in_rev; rewrite E; left; reflexivity).
    specialize (H c Hin). apply andb_true_iff in H as [H _].
    apply no_lead_visible; [exact js_ws_rev_heads| exact H].
Qed.

Lemma split_on_nonempty : forall c s, exists h t, split_on c s = h :: t.
Proof.
  intros c s. induction s as [|a s [h [t IH]]]; simpl; [eauto|].
  destruct (Ascii.eqb a c); [eauto| rewrite IH; eauto].
Qed.

Lemma split_on_plain_app : forall x rest, plain_id x = true ->
  split_on "," (x ++ String "," rest) = x :: split_on "," rest.
Proof.
  induction x as [|a x IH]; intros rest H; [reflexivity|].
  unfold plain_id in H. simpl in H. apply andb_true_iff in H as [Ha Hx].
  apply andb_true_iff in Ha as [_ Ha]. apply negb_true_iff in Ha.
  simpl. rewrite Ha, IH by exact Hx. reflexivity.
Qed.

Lemma split_on_plain_end : forall x, plain_id x = true -> split_on "," x = [x].
Proof.
  induction x as [|a x IH]; intros H; [reflexivity|].
  unfold plain_id in H. simpl in H. apply andb_true_iff in H as [Ha Hx].
  apply andb_true_iff in Ha as [_ Ha]. apply negb_true_iff in Ha.
  simpl. rewrite Ha, IH by exact Hx. reflexivity.
Qed.

Lemma split_on_space : forall s h t, split_on "," s = h :: t ->
  split_on "," (String " " s) = String " " h :: t.
Proof. intros s h t E. simpl. rewrite E. reflexivity. Qed.

Lemma split_join_plain : forall sep ids, (sep = "," \/ sep = ", ") -> ids <> [] ->
  forallb plain_id ids = true -> map trim (split_on "," (str_join sep ids)) = ids.
Proof.
  intros sep ids Hsep. induction ids as [|x t IH]; intros Hne H; [congruence|].
  simpl in H. apply andb_true_iff in H as [Hx Ht].
  destruct t as [|y t].
  - simpl. rewrite split_on_plain_end by exact Hx. simpl. rewrite plain_trim by exact Hx. reflexivity.
  - change (str_join sep (x :: y :: t)) with (x ++ sep ++ str_join sep (y :: t)).
    specialize (IH ltac:(discriminate) Ht).
    destruct Hsep as [-> | ->].
    + change ("," ++ str_join "," (y :: t)) with (String "," (str_join "," (y :: t))).
      rewrite split_on_plain_app by exact Hx. cbn [map]. rewrite plain_trim by exact Hx. f_equal. exact IH.
    + change (", " ++ str_join ", " (y :: t)) with (String "," (String " " (str_join ", " (y :: t)))).
      rewrite split_on_plain_app by exact Hx. cbn [map]. rewrite plain_trim by exact Hx. f_equal.
      rewrite <- IH at 2.
      destruct (split_on_nonempty "," (str_join ", " (y :: t))) as [h [t' E]].
      rewrite (split_on_space _ _ _ E), E. reflexivity.
Qed.

(** X2: With [ADMIN_USER_IDS] set to a non-empty list of comma-free printable ids joined by [,] or [, ], [hasSnapshotPermission] holds exactly for the listed ids. *)
Theorem hasSnapshotPermission_join : forall sep ids userId,
  (sep = "," \/ sep = ", ") -> ids <> [] -> forallb plain_id ids = true ->
  hasSnapshotPermission (Some (str_join sep ids)) userId = existsb (String.eqb userId) ids.
Proof.
  intros sep ids userId Hsep Hne H. unfold hasSnapshotPermission.
  rewrite (split_join_plain sep ids Hsep Hne H). reflexivity.
Qed.

(** Witness for X2. *)
Lemma hasSnapshotPermission_join_witness :
  hasSnapshotPermission (Some (str_join ", " ["111"; "222"])) "222" = true /\
  hasSnapshotPermission (Some (str_join ", " ["111"; "222"])) "333" = false.
Proof.
  split; rewrite (hasSnapshotPermission_join ", " ["111"; "222"]);
    solve [reflexivity | right; reflexivity | discriminate].
Defined.

(** X3: A name returned by [getCleanSnapshotName] is never empty and neither starts nor ends with a JavaScript white-space code point. *)
Theorem getCleanSnapshotName_trimmed : forall snapshot name,
  getCleanSnapshotName snapshot = Some name ->
  name <> "" /\ starts_with_ws name = false /\ ends_with_ws name = false.
Proof.
  intros snapshot name. unfold getCleanSnapshotName.
  destruct (js_or (obj_get snapshot "description") (JStr "Unnamed Snapshot")); try discriminate.
  intros H. injection H as <-.
  destruct (String.eqb _ "") eqn:E.
  - split; [discriminate| split; reflexivity].
  - apply String.eqb_neq in E. split; [exact E| apply trim_ends].
Qed.

(** Witness for X3. *)
Lemma getCleanSnapshotName_trimmed_witness :
  getCleanSnapshotName unicode_ws_snapshot = Some "Valheim" /\
  ("Valheim" <> "" /\ starts_with_ws "Valheim" = false /\ ends_with_ws "Valheim" = false).
Proof.
  split; [reflexivity|].
  apply (getCleanSnapshotName_trimmed unicode_ws_snapshot). reflexivity.
Defined.

Lemma list_ascii_app : forall a b,
  list_ascii_of_string (a ++ b) = (list_ascii_of_string a ++ list_ascii_of_string b)%list.
Proof. induction a as [|c a IH]; intros b; simpl; [reflexivity| rewrite IH; reflexivity]. Qed.

Lemma clean_body : forall pre X, (pre = "[PUBLIC]" \/ pre = "[PRIVATE]") ->
  no_lead js_ws_seqs (list_ascii_of_string X) ->
  no_lead (map (@rev ascii) js_ws_seqs) (rev (list_ascii_of_string X)) ->
  (match rev (list_ascii_of_string X) with c :: _ => Ascii.eqb c "|" = false | [] => False end) ->
  trim (strip_trailing_separator (strip_visibility_prefix (pre ++ " " ++ X))) = X.
Proof.
  intros pre X Hpre H1 H2 H3.
  assert (Hs : strip_visibility_prefix (pre ++ " " ++ X) = X).
  { assert (E : strip_visibility_prefix (pre ++ " " ++ X) =
                string_of_list_ascii (drop_ws (" "%char :: list_ascii_of_string X)))
      by (destruct Hpre as [-> | ->]; reflexivity).
    rewrite E, drop_ws_space. unfold drop_ws. rewrite (drop_seqs_no_lead _ _ _ H1).
    apply string_of_list_ascii_of_string. }
  rewrite Hs. unfold strip_trailing_separator, drop_ws_rev at 1.
  rewrite (drop_seqs_no_lead _ _ _ H2).
  destruct (rev (list_ascii_of_string X)) as [|c t] eqn:E; [contradiction|].
  cbv beta iota. rewrite H3.
  rewrite <- (string_of_list_ascii_of_string X). apply trim_no_lead; [exact H1|]. rewrite E. exact H2.
Qed.

Lemma edge_ok_spec : forall s, edge_ok s = true ->
  (match list_ascii_of_string s with c :: _ => visible c = true | [] => False end) /\
  (match rev (list_ascii_of_string s) with c :: _ => visible c = true /\ Ascii.eqb c "|" = false | [] => False end).
Proof.
  intros s H. unfold edge_ok in H.
  destruct (list_ascii_of_string s) as [|c l]; [discriminate|].
  destruct (rev (c :: l)) as [|c' l']; [discriminate|].
  apply andb_true_iff in H as [H H3]. apply andb_true_iff in H as [H1 H2].
  apply negb_true_iff in H3. auto.
Qed.

(** X4: [getCleanSnapshotName] recovers from a description written by the [/snapshot] command its name, followed by [ | ] and the user description when one was given (names and descriptions with printable ends, the name not ending in [|]). *)
Theorem getCleanSnapshotName_snapshot_description : forall snapshot isPublic name userDescription,
  obj_get snapshot "description" = JStr (snapshot_description isPublic name userDescription) ->
  edge_ok name = true -> (userDescription = "" \/ edge_ok userDescription = true) ->
  getCleanSnapshotName snapshot =
    Some (if String.eqb userDescription "" then name else name ++ " | " ++ userDescription).
Proof.
  intros snapshot isPublic name d Hd Hn Hu.
  destruct (edge_ok_spec name Hn) as [Hn1 Hn2].
  set (X := if String.eqb d "" then name else name ++ " | " ++ d).
  set (pre := if isPublic then "[PUBLIC]" else "[PRIVATE]").
  assert (HX : snapshot_description isPublic name d = pre ++ " " ++ X).
  { unfold snapshot_description, X, pre. destruct (String.eqb d ""); reflexivity. }
  assert (H1 : no_lead js_ws_seqs (list_ascii_of_string X)).
  { unfold X. destruct (String.eqb d ""); [| rewrite list_ascii_app];
    destruct (list_ascii_of_string name) as [|c l]; try contradiction;
    apply no_lead_visible; [exact js_ws_heads| exact Hn1| exact js_ws_heads| exact Hn1]. }
  assert (H2 : match rev (list_ascii_of_string X) with
               | c :: _ => visible c = true /\ Ascii.eqb c "|" = false | [] => False end).
  { unfold X. destruct (String.eqb d "") eqn:Ed.
    - destruct (rev (list_ascii_of_string name)) as [|c l]; [contradiction| exact Hn2].
    - destruct Hu as [-> | Hu]; [discriminate|].
      destruct (edge_ok_spec d Hu) as [_ Hd2].
      rewrite list_ascii_app, list_ascii_app, !rev_app_distr, <- app_assoc.
      destruct (rev (list_ascii_of_string d)) as [|c l]; [contradiction| exact Hd2]. }
  assert (H3 : no_lead (map (@rev ascii) js_ws_seqs) (rev (list_ascii_of_string X)) /\
               match rev (list_ascii_of_string X) with c :: _ => Ascii.eqb c "|" = false | [] => False end).
  { destruct (rev (list_ascii_of_string X)) as [|c l]; [contradiction|]. destruct H2 as [Hv Hb].
    split; [apply no_lead_visible; [exact js_ws_rev_heads| exact Hv]| exact Hb]. }
  assert (Hpre : pre = "[PUBLIC]" \/ pre = "[PRIVATE]") by (unfold pre; destruct isPublic; auto).
  unfold getCleanSnapshotName. rewrite Hd, HX.
  assert (Ht : truthy (JStr (pre ++ " " ++ X)) = true) by (destruct Hpre as [-> | ->]; reflexivity).
  unfold js_or. rewrite Ht. rewrite (clean_body pre X Hpre H1 (proj1 H3) (proj2 H3)).
  destruct (String.eqb X "") eqn:E.
  - apply String.eqb_eq in E. rewrite E in H2. simpl in H2. contradiction.
  - reflexivity.
Qed.

(** Witness for X4. *)
Lemma getCleanSnapshotName_snapshot_description_witness :
  getCleanSnapshotName [("description", JStr (snapshot_description true "Minecraft" "modded"))] =
    Some "Minecraft | modded".
Proof.
  apply (getCleanSnapshotName_snapshot_description
           [("description", JStr (snapshot_description true "Minecraft" "modded"))]
           true "Minecraft" "modded"); [reflexivity | reflexivity | right; reflexivity].
Defined.

(* ------------------------------------------------------------------ *)
(** ** [getPublicSnapshots] *)


Lemma filter_throw_sub : forall {A} (p : A -> option bool) l r x,
  filter_throw p l = Some r -> In x r -> In x l /\ p x = Some true.
Proof.
  intros A p l. induction l as [|y l IH]; intros r x H Hx; simpl in H.
  - injection H as <-. contradiction.
  - destruct (p y) as [b|] eqn:Ep; [|discriminate].
    destruct (filter_throw p l) as [r'|] eqn:Er; [|discriminate].
    injection H as <-. destruct b.
    + destruct Hx as [<- | Hx]; [split; [left; reflexivity| exact Ep]|].
      destruct (IH r' x eq_refl Hx). split; [right|]; assumption.
    + destruct (IH r' x eq_refl Hx). split; [right|]; assumption.
Qed.

Lemma filter_throw_in : forall {A} (p : A -> option bool) l r x,
  filter_throw p l = Some r -> In x l -> p x = Some true -> In x r.
Proof.
  intros A p l. induction l as [|y l IH]; intros r x H Hx Hp; simpl in H; [contradiction|].
  destruct (p y) as [b|] eqn:Ep; [|discriminate].
  destruct (filter_throw p l) as [r'|] eqn:Er; [|discriminate].
  injection H as <-. destruct Hx as [<- | Hx].
  - rewrite Hp in Ep. injection Ep as <-. left. reflexivity.
  - specialize (IH r' x eq_refl Hx Hp). destruct b; [right|]; exact IH.
Qed.

Lemma filter_throw_total : forall {A} (p : A -> option bool) l,
  (forall x, In x l -> p x <> None) -> exists r, filter_throw p l = Some r.
Proof.
  intros A p l. induction l as [|y l IH]; intros H; simpl; [eauto|].
  destruct (p y) as [b|] eqn:Ep; [| exfalso; apply (H y); [left; reflexivity| exact Ep]].
  destruct IH as [r Er]; [intros x Hx; apply H; right; exact Hx|]. rewrite Er. eauto.
Qed.

Lemma filter_throw_NoDup : forall {A B} (p : A -> option bool) (g : A -> B) l r,
  NoDup (map g l) -> filter_throw p l = Some r -> NoDup (map g r).
Proof.
  intros A B p g l. induction l as [|y l IH]; intros r Hn H; simpl in H.
  - injection H as <-. constructor.
  - destruct (p y) as [b|] eqn:Ep; [|discriminate].
    destruct (filter_throw p l) as [r'|] eqn:Er; [|discriminate].
    injection H as <-. simpl in Hn. inversion Hn as [|? ? Hy Hl]; subst.
    specialize (IH r' Hl eq_refl). destruct b; [|exact IH].
    simpl. constructor; [|exact IH].
    intros Hin. apply in_map_iff in Hin as [z [Hz Hin]].
    apply Hy. apply in_map_iff. exists z. split; [exact Hz|].
    exact (proj1 (filter_throw_sub p l r' z Er Hin)).
Qed.

Lemma merge_legacy_sub : forall L acc x,
  In x (fold_left merge_legacy L acc) -> In x acc \/ In x L.
Proof.
  induction L as [|l L IH]; intros acc x H; simpl in H; [left; exact H|].
  destruct (IH _ _ H) as [H1 | H1]; [| right; right; exact H1].
  unfold merge_legacy in H1. destruct (find _ acc); [left; exact H1|].
  apply in_app_or in H1 as [H1 | [<- | []]]; [left; exact H1| right; left; reflexivity].
Qed.

Lemma merge_legacy_keep : forall L acc x,
  In x acc -> In x (fold_left merge_legacy L acc).
Proof.
  induction L as [|l L IH]; intros acc x H; simpl; [exact H|].
  apply IH. unfold merge_legacy. destruct (find _ acc); [exact H|].
  apply in_or_app. left. exact H.
Qed.

Lemma js_strict_eq_str_refl : forall i, js_strict_eq (JStr i) (JStr i) = true.
Proof. intros i. simpl. apply String.eqb_refl. Qed.

Lemma find_none : forall {A} (p : A -> bool) l x, find p l = None -> In x l -> p x = false.
Proof.
  intros A p l x. induction l as [|y l IH]; intros H Hx; [contradiction|].
  simpl in H. destruct (p y) eqn:Ey; [discriminate|].
  destruct Hx as [<- | Hx]; [exact Ey| exact (IH H Hx)].
Qed.

Lemma merge_legacy_NoDup : forall L acc,
  NoDup (map (fun s => obj_get s "id") acc) ->
  (forall l, In l L -> exists i, obj_get l "id" = JStr i) ->
  NoDup (map (fun s => obj_get s "id") (fold_left merge_legacy L acc)).
Proof.
  induction L as [|l L IH]; intros acc Hn HL; simpl; [exact Hn|].
  apply IH; [| intros l' Hl'; apply HL; right; exact Hl'].
  unfold merge_legacy. destruct (find _ acc) eqn:Ef; [exact Hn|].
  destruct (HL l (or_introl eq_refl)) as [i Hi].
  rewrite map_app. simpl. apply NoDup_app; [exact Hn| constructor; [intros []| constructor]|].
  intros v Hv [Hv' | []]. subst v.
  apply in_map_iff in Hv as [z [Hz Hin]].
  pose proof (find_none _ acc z Ef Hin) as Hf. simpl in Hf.
  rewrite Hz, Hi in Hf. rewrite js_strict_eq_str_refl in Hf. discriminate.
Qed.

Lemma default_snapshot_spec : forall sid pub all d,
  default_snapshot sid pub all = Some d -> In d all /\ js_is_str (obj_get d "status") "complete" = true.
Proof.
  intros sid pub all d H. unfold default_snapshot in H.
  destruct pub; [|discriminate]. destruct sid as [e|]; [|discriminate].
  destruct (truthy (JStr e)); [|discriminate].
  destruct (find _ all) as [x|] eqn:Ef; [|discriminate].
  destruct (js_is_str (obj_get x "status") "complete") eqn:Ec; [|discriminate].
  injection H as <-. split; [exact (find_in _ _ _ Ef)| exact Ec].
Qed.

Lemma default_snapshot_nonempty : forall sid p pub all,
  default_snapshot sid (p :: pub) all = None.
Proof. intros sid p pub all. destruct sid; reflexivity. Qed.

(** X5: Every snapshot that [getPublicSnapshots] offers was listed by the provider and has status [complete]; when the listing throws nothing is offered. *)
Theorem getPublicSnapshots_complete : forall VULTR_SNAPSHOT_ID VULTR_PUBLIC_SNAPSHOTS res s,
  In s (getPublicSnapshots VULTR_SNAPSHOT_ID VULTR_PUBLIC_SNAPSHOTS res) ->
  exists allSnapshots, res = Some allSnapshots /\ In s allSnapshots /\
    js_is_str (obj_get s "status") "complete" = true.
Proof.
  intros sid leg res s H. unfold getPublicSnapshots in H.
  destruct res as [all|]; [|contradiction]. exists all. split; [reflexivity|].
  destruct (filter_throw is_marked_public all) as [pub|] eqn:Ep; [|contradiction].
  assert (Hpub : forall x, In x pub -> In x all /\ js_is_str (obj_get x "status") "complete" = true).
  { intros x Hx. destruct (filter_throw_sub _ _ _ _ Ep Hx) as [Hin Hm]. split; [exact Hin|].
    unfold is_marked_public in Hm. destruct (description_str x); [|discriminate].
    injection Hm as Hm. apply andb_true_iff in Hm. apply Hm. }
  destruct (default_snapshot sid pub all) as [d|] eqn:Ed.
  - destruct H as [<- | []]. exact (default_snapshot_spec _ _ _ _ Ed).
  - destruct (legacy_ids leg) as [|i0 it]; [apply Hpub; exact H|].
    apply merge_legacy_sub in H. destruct H as [H | H]; [apply Hpub; exact H|].
    apply filter_In in H. destruct H as [Hin Hc]. unfold is_legacy in Hc.
    apply andb_true_iff in Hc. split; [exact Hin| apply Hc].
Qed.

(** Witness for X5. *)
Lemma getPublicSnapshots_complete_witness :
  getPublicSnapshots None None (Some sample_snapshots) = [snapshot_a] /\
  exists allSnapshots, Some sample_snapshots = Some allSnapshots /\ In snapshot_a allSnapshots /\
    js_is_str (obj_get snapshot_a "status") "complete" = true.
Proof.
  split; [reflexivity|].
  apply (getPublicSnapshots_complete None None (Some sample_snapshots) snapshot_a).
  vm_compute. left. reflexivity.
Defined.

(** X6: A complete snapshot whose description was written by [/snapshot] with public set is always offered by [getPublicSnapshots], whatever [VULTR_SNAPSHOT_ID] and [VULTR_PUBLIC_SNAPSHOTS] say, provided no description in the listing is a truthy non-string. *)
Theorem getPublicSnapshots_public : forall VULTR_SNAPSHOT_ID VULTR_PUBLIC_SNAPSHOTS allSnapshots s name d,
  (forall x, In x allSnapshots -> description_str x <> None) ->
  In s allSnapshots ->
  obj_get s "description" = JStr (snapshot_description true name d) ->
  js_is_str (obj_get s "status") "complete" = true ->
  In s (getPublicSnapshots VULTR_SNAPSHOT_ID VULTR_PUBLIC_SNAPSHOTS (Some allSnapshots)).
Proof.
  intros sid leg all s name d Hall Hin Hd Hc. unfold getPublicSnapshots.
  destruct (filter_throw_total is_marked_public all) as [pub Ep].
  { intros x Hx Hm. unfold is_marked_public in Hm. destruct (description_str x) eqn:E; [discriminate|].
    exact (Hall x Hx E). }
  rewrite Ep.
  assert (Hm : is_marked_public s = Some true).
  { unfold is_marked_public, description_str. rewrite Hd, Hc.
    unfold snapshot_description. destruct (String.eqb d ""); reflexivity. }
  pose proof (filter_throw_in _ _ _ _ Ep Hin Hm) as Hs.
  destruct pub as [|p pub]; [contradiction|]. rewrite default_snapshot_nonempty.
  destruct (legacy_ids leg); [exact Hs|]. apply merge_legacy_keep. exact Hs.
Qed.

(** Witness for X6. *)
Lemma getPublicSnapshots_public_witness :
  In snapshot_a (getPublicSnapshots None (Some "snap-c") (Some sample_snapshots)).
Proof.
  apply (getPublicSnapshots_public None (Some "snap-c") sample_snapshots snapshot_a "Minecraft" "modded").
  - intros x [<- | [<- | [<- | []]]]; discriminate.
  - left. reflexivity.
  - reflexivity.
  - reflexivity.
Defined.

(** X7: When the provider lists distinct snapshot ids, [getPublicSnapshots] offers each snapshot at most once, even if it is both marked public and listed in [VULTR_PUBLIC_SNAPSHOTS]. *)
Theorem getPublicSnapshots_NoDup : forall VULTR_SNAPSHOT_ID VULTR_PUBLIC_SNAPSHOTS allSnapshots,
  NoDup (map (fun s => obj_get s "id") allSnapshots) ->
  NoDup (map (fun s => obj_get s "id")
    (getPublicSnapshots VULTR_SNAPSHOT_ID VULTR_PUBLIC_SNAPSHOTS (Some allSnapshots))).
Proof.
  intros sid leg all Hn. unfold getPublicSnapshots.
  destruct (filter_throw is_marked_public all) as [pub|] eqn:Ep; [|constructor].
  pose proof (filter_throw_NoDup _ _ _ _ Hn Ep) as Hp.
  destruct (default_snapshot sid pub all) as [d|]; [constructor; [intros []| constructor]|].
  destruct (legacy_ids leg) as [|i0 it]; [exact Hp|].
  apply merge_legacy_NoDup; [exact Hp|].
  intros l Hl. apply filter_In in Hl as [_ Hl]. unfold is_legacy in Hl.
  destruct (obj_get l "id"); try discriminate. eauto.
Qed.

(** Witness for X7. *)
Lemma getPublicSnapshots_NoDup_witness :
  getPublicSnapshots None (Some "snap-c, snap-a") (Some sample_snapshots) = [snapshot_a; snapshot_c] /\
  NoDup (map (fun s => obj_get s "id")
    (getPublicSnapshots None (Some "snap-c, snap-a") (Some sample_snapshots))).
Proof.
  split; [reflexivity|]. apply getPublicSnapshots_NoDup.
  repeat constructor; simpl; intuition discriminate.
Defined.

(* ------------------------------------------------------------------ *)
(** ** The [/list] sync and the startup recovery *)


Lemma find_app_one : forall {A} (p : A -> bool) l v,
  find p (l ++ [v])%list = match find p l with Some r => Some r | None => if p v then Some v else None end.
Proof.
  intros A p l v. induction l as [|x t IH]; simpl; [reflexivity|].
  destruct (p x); [reflexivity| exact IH].
Qed.

Lemma find_some_of_in : forall {A} (p : A -> bool) l x, In x l -> p x = true -> exists r, find p l = Some r.
Proof.
  intros A p l x. induction l as [|y t IH]; intros Hx Hp; [contradiction|].
  simpl. destruct (p y) eqn:Ey; [eauto|].
  destruct Hx as [<- | Hx]; [congruence| exact (IH Hx Hp)].
Qed.

Lemma find_true : forall {A} (p : A -> bool) l r, find p l = Some r -> p r = true.
Proof.
  intros A p l r. induction l as [|y t IH]; intros H; simpl in H; [discriminate|].
  destruct (p y) eqn:Ey; [injection H as <-; exact Ey| exact (IH H)].
Qed.

Lemma has_id_other : forall i x y, has_id i x = true -> x <> y -> has_id i y = false.
Proof.
  unfold has_id, js_is_str. intros i x y H Hxy. destruct (obj_get i "id"); try discriminate.
  apply String.eqb_eq in H; subst. apply String.eqb_neq. exact Hxy.
Qed.

Lemma instanceData_get : forall id uid uname st md iso k v,
  In (k, v) (instanceData id uid uname st md iso) ->
  forall e, obj_get (spread e (instanceData id uid uname st md iso)) k = v.
Proof. intros. apply obj_get_spread_in; [assumption| apply instanceData_keys_NoDup]. Qed.

Lemma has_id_instanceData : forall e id uid uname st md iso,
  obj_get (spread e (instanceData id uid uname st md iso)) "id" = JStr id.
Proof. intros. apply instanceData_get. left. reflexivity. Qed.

Lemma track_same : forall reg x uid uname st md iso,
  InstanceState.getInstance (fst (InstanceState.trackInstance reg x uid uname st md iso)) x =
  Some (match InstanceState.getInstance reg x with
        | Some e => spread e (instanceData x uid uname st md iso)
        | None => instanceData x uid uname st md iso
        end).
Proof.
  intros. unfold InstanceState.trackInstance, InstanceState.getInstance.
  destruct (findIndex (fun i => has_id i x) reg) as [n|] eqn:Hn.
  - destruct (find_findIndex _ _ _ Hn) as (e & Hnth & Hf & _). rewrite Hnth, Hf. simpl.
    apply find_replace_same; [exact Hn|]. unfold has_id.
    rewrite !obj_get_set. simpl. apply String.eqb_refl.
  - rewrite (findIndex_None _ _ Hn). simpl. rewrite find_app_one, (findIndex_None _ _ Hn).
    unfold has_id. simpl. rewrite String.eqb_refl. reflexivity.
Qed.

Lemma track_other : forall reg x y uid uname st md iso, x <> y ->
  InstanceState.getInstance (fst (InstanceState.trackInstance reg x uid uname st md iso)) y =
  InstanceState.getInstance reg y.
Proof.
  intros reg x y uid uname st md iso Hxy. unfold InstanceState.trackInstance, InstanceState.getInstance.
  destruct (findIndex (fun i => has_id i x) reg) as [n|] eqn:Hn.
  - destruct (find_findIndex _ _ _ Hn) as (e & Hnth & _ & Hp). rewrite Hnth. simpl.
    eapply find_replace_other; [exact Hnth| apply (has_id_other _ _ _ Hp Hxy)|].
    apply (has_id_other _ x); [| exact Hxy]. unfold has_id. rewrite !obj_get_set. simpl. apply String.eqb_refl.
  - simpl. rewrite find_app_one.
    destruct (find (fun i => has_id i y) reg); [reflexivity|].
    unfold has_id. simpl. apply String.eqb_neq in Hxy. rewrite Hxy. reflexivity.
Qed.

Lemma not_in_id_ip : forall v : jsval, ~ In "id" (map fst [("ip", v)]).
Proof. intros v. apply not_in_id_1. discriminate. Qed.

Lemma not_in_id_nil : ~ In "id" (map (@fst string jsval) []).
Proof. intros []. Qed.

Lemma not_in_id_timer : forall v : jsval, ~ In "id" (map fst [("selfDestructTimer", v)]).
Proof. intros v. apply not_in_id_1. discriminate. Qed.

Lemma sync_one_other : forall act reg v iso x,
  obj_get v "id" <> JStr x ->
  InstanceState.getInstance (sync_one act reg v iso) x = InstanceState.getInstance reg x.
Proof.
  intros act reg v iso x H. unfold sync_one.
  destruct (obj_get v "id") as [| | | | |vid| |]; try reflexivity.
  assert (Hne : vid <> x) by congruence.
  destruct (find _ act).
  - apply update_other; [congruence| apply not_in_id_ip].
  - apply track_other. exact Hne.
Qed.

Lemma fold_sync_other : forall act L reg iso x,
  (forall v, In v L -> obj_get v "id" <> JStr x) ->
  InstanceState.getInstance (fold_left (fun reg v => sync_one act reg v iso) L reg) x =
  InstanceState.getInstance reg x.
Proof.
  intros act L. induction L as [|v L IH]; intros reg iso x H; simpl; [reflexivity|].
  rewrite IH by (intros; apply H; right; assumption).
  apply sync_one_other. apply H. left. reflexivity.
Qed.

Lemma terminate_other : forall L reg t iso x,
  obj_get t "id" <> JStr x ->
  InstanceState.getInstance (terminate_missing L reg t iso) x = InstanceState.getInstance reg x.
Proof.
  intros L reg t iso x H. unfold terminate_missing.
  destruct (obj_get t "id") as [| | | | |tid| |]; try reflexivity.
  destruct (find _ L); [reflexivity|]. apply update_other; [congruence| apply not_in_id_nil].
Qed.

Lemma terminate_listed : forall L reg t iso x v,
  In v L -> obj_get v "id" = JStr x ->
  InstanceState.getInstance (terminate_missing L reg t iso) x = InstanceState.getInstance reg x.
Proof.
  intros L reg t iso x v Hv Hid. destruct (obj_get t "id") as [| | | | |tid| |] eqn:Et;
    try (apply terminate_other; rewrite Et; discriminate).
  destruct (String.eqb_spec tid x) as [-> | Hne]; [| apply terminate_other; congruence].
  unfold terminate_missing. rewrite Et.
  destruct (find_some_of_in (fun i => js_is_str (obj_get i "id") x) L v Hv) as [w Hw].
  { rewrite Hid. apply String.eqb_refl. }
  rewrite Hw. reflexivity.
Qed.

Lemma fold_terminate_listed : forall L A reg iso x v,
  In v L -> obj_get v "id" = JStr x ->
  InstanceState.getInstance (fold_left (fun reg t => terminate_missing L reg t iso) A reg) x =
  InstanceState.getInstance reg x.
Proof.
  intros L A. induction A as [|t A IH]; intros reg iso x v Hv Hid; simpl; [reflexivity|].
  rewrite (IH _ _ _ v Hv Hid). exact (terminate_listed L reg t iso x v Hv Hid).
Qed.

Lemma status_js_or : forall p, p <> "" -> js_or (JStr p) (JStr "creating") = JStr p.
Proof. intros p H. unfold js_or. simpl. apply String.eqb_neq in H. rewrite H. reflexivity. Qed.

Lemma sync_one_same : forall act reg v iso x p,
  obj_get v "id" = JStr x -> obj_get v "power_status" = JStr p -> p <> "" ->
  (forall r, find (fun i => has_id i x) act = Some r -> InstanceState.getInstance reg x <> None) ->
  exists r, InstanceState.getInstance (sync_one act reg v iso) x = Some r /\ obj_get r "status" = JStr p.
Proof.
  intros act reg v iso x p Hid Hp Hne Hact. unfold sync_one. rewrite Hid.
  destruct (find (fun i => has_id i x) act) as [a|] eqn:Ef.
  - destruct (InstanceState.getInstance reg x) as [e|] eqn:Ee; [| exfalso; exact (Hact a eq_refl eq_refl)].
    eexists. rewrite (update_same _ _ e _ _ _ Ee (not_in_id_ip _)). split; [reflexivity|].
    rewrite updated_get_1. simpl. exact Hp.
  - rewrite track_same. eexists. split; [reflexivity|].
    destruct (InstanceState.getInstance reg x).
    + rewrite instanceData_get with (v := js_or (obj_get v "power_status") (JStr "creating"));
        [rewrite Hp; apply status_js_or, Hne | simpl; tauto].
    + simpl. rewrite Hp. apply status_js_or, Hne.
Qed.

Lemma getInstance_of_in : forall reg r x, In r reg -> obj_get r "id" = JStr x ->
  InstanceState.getInstance reg x <> None.
Proof.
  intros reg r x Hr Hid. unfold InstanceState.getInstance.
  destruct (find_some_of_in (fun i => has_id i x) reg r Hr) as [w Hw].
  { unfold has_id. rewrite Hid. apply String.eqb_refl. }
  rewrite Hw. discriminate.
Qed.

Lemma fold_sync_same : forall act L reg iso v x p,
  NoDup (map (fun i => obj_get i "id") L) -> In v L ->
  obj_get v "id" = JStr x -> obj_get v "power_status" = JStr p -> p <> "" ->
  (forall r, find (fun i => has_id i x) act = Some r -> InstanceState.getInstance reg x <> None) ->
  exists r, InstanceState.getInstance (fold_left (fun reg v => sync_one act reg v iso) L reg) x = Some r /\
            obj_get r "status" = JStr p.
Proof.
  intros act L reg iso v x p Hnd Hv Hid Hp Hne Hact.
  destruct (in_split _ _ Hv) as (a & b & ->).
  rewrite map_app in Hnd. simpl in Hnd. apply NoDup_remove_2 in Hnd.
  rewrite fold_left_app. simpl.
  rewrite fold_sync_other.
  - apply sync_one_same; try assumption.
    intros r Hr. rewrite fold_sync_other; [exact (Hact r Hr)|].
    intros w Hw Hw'. apply Hnd. apply in_or_app. left. apply in_map_iff. exists w. rewrite Hid. auto.
  - intros w Hw Hw'. apply Hnd. apply in_or_app. right. apply in_map_iff. exists w. rewrite Hid. auto.
Qed.

(** X8: After [/list] syncs with the provider, every listed instance with a string id and a non-empty power status is in the registry with that power status as its status (listed ids distinct). *)
Theorem listCommand_tracks_listed : forall cfg reg raw iso v x p,
  NoDup (map (fun i => obj_get i "id") (listInstances cfg raw)) ->
  In v (listInstances cfg raw) ->
  obj_get v "id" = JStr x -> obj_get v "power_status" = JStr p -> p <> "" ->
  exists r, InstanceState.getInstance (fst (listCommand cfg reg (Some raw) iso)) x = Some r /\
            obj_get r "status" = JStr p.
Proof.
  intros cfg reg raw iso v x p Hnd Hv Hid Hp Hne. unfold listCommand, list_sync. simpl.
  rewrite (fold_terminate_listed _ _ _ _ x v Hv Hid).
  apply (fold_sync_same _ _ _ _ v); try assumption.
  intros r Hr. pose proof (find_in _ _ _ Hr) as Hin. unfold getActiveInstances in Hin.
  apply filter_In in Hin as [Hin _].
  apply (getInstance_of_in reg r x Hin). apply js_is_str_eq. exact (find_true _ _ _ Hr).
Qed.

(** Witness for X8. *)
Lemma listCommand_tracks_listed_witness :
  exists r, InstanceState.getInstance
    (fst (listCommand sample_cfg sample_registry
            (Some [vultr_instance "inst-1" "stopped"; vultr_instance "inst-2" "running"]) "T2"))
    "inst-2" = Some r /\ obj_get r "status" = JStr "running".
Proof.
  apply (listCommand_tracks_listed sample_cfg sample_registry
           [vultr_instance "inst-1" "stopped"; vultr_instance "inst-2" "running"] "T2"
           (vultr_instance "inst-2" "running")).
  - repeat constructor; simpl; intuition discriminate.
  - right. left. reflexivity.
  - reflexivity.
  - reflexivity.
  - discriminate.
Defined.

Lemma find_none_of : forall {A} (p : A -> bool) l, (forall y, In y l -> p y = false) -> find p l = None.
Proof.
  intros A p l. induction l as [|y t IH]; intros H; simpl; [reflexivity|].
  rewrite (H y (or_introl eq_refl)). apply IH. intros z Hz. apply H. right. exact Hz.
Qed.

Lemma updated_terminated : forall e iso,
  obj_get (updated e (JStr "terminated") [] iso) "status" = JStr "terminated".
Proof. intros. unfold updated, spread. simpl. rewrite !obj_get_set. reflexivity. Qed.

Lemma terminate_step_unlisted : forall L reg t iso x e,
  (forall v, In v L -> obj_get v "id" <> JStr x) ->
  obj_get t "id" = JStr x -> InstanceState.getInstance reg x = Some e ->
  InstanceState.getInstance (terminate_missing L reg t iso) x =
  Some (updated e (JStr "terminated") [] iso).
Proof.
  intros L reg t iso x e HL Ht He. unfold terminate_missing. rewrite Ht.
  rewrite find_none_of.
  - apply update_same; [exact He| apply not_in_id_nil].
  - intros v Hv. destruct (obj_get v "id") eqn:Ev; try reflexivity.
    apply String.eqb_neq. intros ->. exact (HL v Hv Ev).
Qed.

Lemma terminate_keeps : forall L reg t iso x,
  InstanceState.getInstance reg x <> None ->
  InstanceState.getInstance (terminate_missing L reg t iso) x <> None.
Proof.
  intros L reg t iso x H. destruct (obj_get t "id") as [| | | | |tid| |] eqn:Et;
    try (rewrite terminate_other by (rewrite Et; discriminate); exact H).
  destruct (String.eqb_spec tid x) as [-> | Hne];
    [| rewrite terminate_other by congruence; exact H].
  unfold terminate_missing. rewrite Et. destruct (find _ L); [exact H|].
  destruct (InstanceState.getInstance reg x) as [e|] eqn:Ee; [|contradiction].
  rewrite (update_same _ _ e _ _ _ Ee not_in_id_nil). discriminate.
Qed.

Lemma terminate_keeps_terminated : forall L reg t iso x,
  (forall v, In v L -> obj_get v "id" <> JStr x) ->
  terminated_in reg x -> terminated_in (terminate_missing L reg t iso) x.
Proof.
  intros L reg t iso x HL [r [Hr Hs]].
  assert (Hcase : obj_get t "id" = JStr x \/ obj_get t "id" <> JStr x).
  { destruct (obj_get t "id"); try (right; discriminate).
    destruct (String.eqb_spec s x); [left; congruence| right; congruence]. }
  destruct Hcase as [Ht|Ht].
  - exists (updated r (JStr "terminated") [] iso).
    split; [apply terminate_step_unlisted; assumption| apply updated_terminated].
  - exists r. rewrite terminate_other by exact Ht. auto.
Qed.

Lemma fold_terminate_keeps_terminated : forall L A reg iso x,
  (forall v, In v L -> obj_get v "id" <> JStr x) ->
  terminated_in reg x ->
  terminated_in (fold_left (fun reg t => terminate_missing L reg t iso) A reg) x.
Proof.
  intros L A. induction A as [|t A IH]; intros reg iso x HL H; simpl; [exact H|].
  apply IH; [exact HL|]. apply terminate_keeps_terminated; assumption.
Qed.

Lemma fold_terminate_unlisted : forall L A reg iso x a,
  (forall v, In v L -> obj_get v "id" <> JStr x) ->
  InstanceState.getInstance reg x <> None ->
  In a A -> obj_get a "id" = JStr x ->
  terminated_in (fold_left (fun reg t => terminate_missing L reg t iso) A reg) x.
Proof.
  intros L A. induction A as [|t A IH]; intros reg iso x a HL Hreg Ha Hid; [contradiction|].
  simpl. destruct Ha as [<- | Ha].
  - apply fold_terminate_keeps_terminated; [exact HL|].
    destruct (InstanceState.getInstance reg x) as [e|] eqn:Ee; [|contradiction].
    exists (updated e (JStr "terminated") [] iso).
    split; [apply terminate_step_unlisted; assumption| apply updated_terminated].
  - apply (IH _ _ _ a HL); [apply terminate_keeps; exact Hreg| exact Ha| exact Hid].
Qed.

Lemma list_sync_terminates_unlisted : forall cfg reg raw iso a x,
  In a (InstanceState.getActiveInstances reg) -> obj_get a "id" = JStr x ->
  (forall v, In v (listInstances cfg raw) -> obj_get v "id" <> JStr x) ->
  exists r, InstanceState.getInstance (fst (listCommand cfg reg (Some raw) iso)) x = Some r /\
            obj_get r "status" = JStr "terminated".
Proof.
  intros cfg reg raw iso a x Ha Hid HL. unfold listCommand, list_sync. simpl.
  apply (fold_terminate_unlisted _ _ _ _ _ a HL); [| exact Ha | exact Hid].
  rewrite fold_sync_other by exact HL.
  apply filter_In in Ha as [Ha _]. exact (getInstance_of_in reg a x Ha Hid).
Qed.

(** X9: After [/list] syncs with the provider, an id that had an active record but is not listed is in the registry with status [terminated]. *)
Theorem listCommand_terminates_unlisted : forall cfg reg raw iso a x,
  In a (InstanceState.getActiveInstances reg) -> obj_get a "id" = JStr x ->
  (forall v, In v (listInstances cfg raw) -> obj_get v "id" <> JStr x) ->
  exists r, InstanceState.getInstance (fst (listCommand cfg reg (Some raw) iso)) x = Some r /\
            obj_get r "status" = JStr "terminated".
Proof. exact list_sync_terminates_unlisted. Qed.

(** Witness for X9. *)
Lemma listCommand_terminates_unlisted_witness :
  exists r, InstanceState.getInstance
    (fst (listCommand sample_cfg sample_registry (Some [vultr_instance "inst-2" "running"]) "T2"))
    "inst-1" = Some r /\ obj_get r "status" = JStr "terminated".
Proof.
  apply (listCommand_terminates_unlisted sample_cfg sample_registry
           [vultr_instance "inst-2" "running"] "T2" sample_record).
  - vm_compute. left. reflexivity.
  - reflexivity.
  - intros v [<- | []]. discriminate.
Defined.

Lemma listInstances_not_current : forall cfg raw v x,
  currentServerInstanceId cfg = JStr x -> In v (listInstances cfg raw) -> obj_get v "id" <> JStr x.
Proof.
  intros cfg raw v x Hc Hv Hid.
  assert (Hin : In v (filter (fun i => negb (isCurrentServer cfg (obj_get i "id"))) raw)).
  { unfold listInstances in Hv. destruct (truthy _); [apply filter_In in Hv; tauto| exact Hv]. }
  apply filter_In in Hin as [_ Hf]. unfold isCurrentServer in Hf.
  rewrite Hc, Hid in Hf. simpl in Hf. rewrite String.eqb_refl in Hf. discriminate.
Qed.

(** X10: [/list] marks an active record of the bot's own auto-detected host as [terminated], because [listInstances] never lists that host. *)
Theorem listCommand_terminates_host : forall cfg reg raw iso a x,
  currentServerInstanceId cfg = JStr x ->
  In a (InstanceState.getActiveInstances reg) -> obj_get a "id" = JStr x ->
  exists r, InstanceState.getInstance (fst (listCommand cfg reg (Some raw) iso)) x = Some r /\
            obj_get r "status" = JStr "terminated".
Proof.
  intros cfg reg raw iso a x Hc Ha Hid.
  apply (list_sync_terminates_unlisted cfg reg raw iso a x Ha Hid).
  intros v Hv. exact (listInstances_not_current cfg raw v x Hc Hv).
Qed.

(** Witness for X10. *)
Lemma listCommand_terminates_host_witness :
  exists r, InstanceState.getInstance
    (fst (listCommand host_cfg host_registry
            (Some [vultr_instance "host-1" "running"; vultr_instance "inst-2" "running"]) "T2"))
    "host-1" = Some r /\ obj_get r "status" = JStr "terminated".
Proof.
  apply (listCommand_terminates_host host_cfg host_registry
           [vultr_instance "host-1" "running"; vultr_instance "inst-2" "running"] "T2" host_record).
  - reflexivity.
  - vm_compute. left. reflexivity.
  - reflexivity.
Defined.

Lemma recover_one_other : forall cfg reg v iso x,
  obj_get v "id" <> JStr x ->
  InstanceState.getInstance (recover_one cfg reg v iso) x = InstanceState.getInstance reg x.
Proof.
  intros cfg reg v iso x H. unfold recover_one.
  destruct (js_strict_eq _ _); [reflexivity|].
  destruct (obj_get v "id") as [| | | | |vid| |]; try reflexivity.
  apply track_other. congruence.
Qed.

Lemma recover_one_excluded : forall cfg reg v iso x,
  EXCLUDE_INSTANCE_ID cfg = Some x ->
  InstanceState.getInstance (recover_one cfg reg v iso) x = InstanceState.getInstance reg x.
Proof.
  intros cfg reg v iso x Hx. destruct (obj_get v "id") as [| | | | |vid| |] eqn:Ev;
    try (apply recover_one_other; rewrite Ev; discriminate).
  destruct (String.eqb_spec vid x) as [-> | Hne]; [| apply recover_one_other; congruence].
  unfold recover_one. rewrite Ev, Hx. simpl. rewrite String.eqb_refl. reflexivity.
Qed.

Lemma recover_one_same : forall cfg reg v iso x,
  obj_get v "id" = JStr x -> EXCLUDE_INSTANCE_ID cfg <> Some x ->
  exists r, InstanceState.getInstance (recover_one cfg reg v iso) x = Some r /\ recovered_record r v.
Proof.
  intros cfg reg v iso x Hid Hx. unfold recover_one. rewrite Hid.
  assert (Hne : js_strict_eq (JStr x) (env_val (EXCLUDE_INSTANCE_ID cfg)) = false).
  { destruct (EXCLUDE_INSTANCE_ID cfg) as [y|]; [|reflexivity]. simpl.
    apply String.eqb_neq. congruence. }
  rewrite Hne. rewrite track_same. eexists. split; [reflexivity|].
  destruct (InstanceState.getInstance reg x); unfold recovered_record.
  - split; apply instanceData_get; simpl; tauto.
  - split; reflexivity.
Qed.

(** X11: The startup recovery tracks every provider instance whose string id is not [EXCLUDE_INSTANCE_ID]: its record has the power status as status (or [creating]) and the creator [unknown] / [System Recovery] (provider ids distinct). *)
Theorem recoverInstances_tracks : forall cfg reg raw iso v x,
  NoDup (map (fun i => obj_get i "id") raw) -> In v raw ->
  obj_get v "id" = JStr x -> EXCLUDE_INSTANCE_ID cfg <> Some x ->
  exists r, InstanceState.getInstance (recoverInstances cfg reg raw iso) x = Some r /\
            recovered_record r v.
Proof.
  intros cfg reg raw iso v x Hnd Hv Hid Hx. unfold recoverInstances.
  destruct (in_split _ _ Hv) as (a & b & ->).
  rewrite map_app in Hnd. simpl in Hnd. apply NoDup_remove_2 in Hnd.
  rewrite fold_left_app. simpl.
  assert (Hb : forall reg', InstanceState.getInstance
     (fold_left (fun reg w => recover_one cfg reg w iso) b reg') x = InstanceState.getInstance reg' x).
  { intros reg'. clear Hv. revert reg'. induction b as [|w b IH]; intros reg'; simpl; [reflexivity|].
    rewrite IH.
    - apply recover_one_other. intros Hw. apply Hnd. apply in_or_app. right. left. congruence.
    - intros Hin. apply Hnd. apply in_app_or in Hin as [Hin|Hin]; apply in_or_app; [left|right; right]; exact Hin. }
  rewrite Hb. apply recover_one_same; assumption.
Qed.

(** Witness for X11. *)
Lemma recoverInstances_tracks_witness :
  exists r, InstanceState.getInstance
    (recoverInstances exclude_cfg [] [vultr_instance "host-1" "running"; vultr_instance "inst-2" "stopped"] "T1")
    "inst-2" = Some r /\ recovered_record r (vultr_instance "inst-2" "stopped").
Proof.
  apply (recoverInstances_tracks exclude_cfg []
           [vultr_instance "host-1" "running"; vultr_instance "inst-2" "stopped"] "T1"
           (vultr_instance "inst-2" "stopped")).
  - repeat constructor; simpl; intuition discriminate.
  - right. left. reflexivity.
  - reflexivity.
  - discriminate.
Defined.

(** X12: The startup recovery leaves the registry entry of [EXCLUDE_INSTANCE_ID] as it was. *)
Theorem recoverInstances_excluded : forall cfg reg raw iso x,
  EXCLUDE_INSTANCE_ID cfg = Some x ->
  InstanceState.getInstance (recoverInstances cfg reg raw iso) x = InstanceState.getInstance reg x.
Proof.
  intros cfg reg raw iso x Hx. unfold recoverInstances. revert reg.
  induction raw as [|v raw IH]; intros reg; simpl; [reflexivity|].
  rewrite IH. apply recover_one_excluded. exact Hx.
Qed.

(** Witness for X12. *)
Lemma recoverInstances_excluded_witness :
  InstanceState.getInstance
    (recoverInstances exclude_cfg [] [vultr_instance "host-1" "running"; vultr_instance "inst-2" "stopped"] "T1")
    "host-1" = None.
Proof. apply (recoverInstances_excluded exclude_cfg [] _ "T1" "host-1"). reflexivity. Defined.

(* ------------------------------------------------------------------ *)
(** ** [startInstance], [destroy_server] and button routing *)


Lemma wait_protected : forall cfg id tgt timeout checks,
  isCurrentServer cfg (JStr id) = true ->
  waitForInstanceStatus cfg id tgt timeout checks <> Some true.
Proof.
  intros cfg id tgt timeout checks H. induction checks as [|c rest IH]; simpl; [discriminate|].
  destruct (w_elapsed c <? timeout); [|discriminate].
  destruct (w_get c) as [s|inst]; simpl; [exact IH|]. rewrite H.
  destruct (nullish inst); simpl; [exact IH| discriminate].
Qed.

(** X13: On the bot's own host [startInstance] still issues the start call, but the wait never confirms [running]: the registry is unchanged and the reply is never success. *)
Theorem startInstance_self_protected : forall cfg reg id replyOk startOk checks iso,
  isCurrentServer cfg (JStr id) = true ->
  let '(reg', calls, reply) := startInstance cfg reg id replyOk startOk checks iso in
  reg' = reg /\ reply <> PowerOk /\ (replyOk = true -> calls = [CStartInstance (JStr id)]).
Proof.
  intros cfg reg id replyOk startOk checks iso H. unfold startInstance.
  destruct replyOk; simpl; [| repeat split; [discriminate| discriminate]].
  destruct startOk; simpl; [| repeat split; discriminate].
  pose proof (wait_protected cfg id "running" (15 * 60 * 1000) checks H) as Hw.
  destruct (waitForInstanceStatus _ _ _ _ _) as [[|]|]; [contradiction| |];
    repeat split; discriminate.
Qed.

(** Witness for X13. *)
Lemma startInstance_self_protected_witness :
  let '(reg', calls, reply) :=
    startInstance host_cfg host_registry "host-1" true true
      [{| w_elapsed := 0; w_get := PGetOk (sample_instance "active" "running" "10.0.0.1") |}] "T1" in
  reg' = host_registry /\ reply <> PowerOk /\ (true = true -> calls = [CStartInstance (JStr "host-1")]).
Proof. apply (startInstance_self_protected host_cfg host_registry "host-1"). reflexivity. Defined.

(** X14: The [destroy_server] menu issues a delete call only for an id that is not the bot's own host and for which [getInstance] returned an instance. *)
Theorem destroyServerSelect_delete_guard : forall cfg reg id resp replyOk del iso,
  In (CDeleteInstance (JStr id)) (snd (fst (destroyServerSelect cfg reg id resp replyOk del iso))) ->
  isCurrentServer cfg (JStr id) = false /\
  exists inst, getInstance cfg id resp = GIRet inst /\ truthy inst = true.
Proof.
  intros cfg reg id resp replyOk del iso H. unfold destroyServerSelect in H.
  destruct (isCurrentServer cfg (JStr id)) eqn:Ec; simpl in H; [contradiction|].
  split; [reflexivity|].
  destruct (getInstance cfg id resp) as [s|inst] eqn:Eg; simpl in H.
  - destruct H as [H|[]]; discriminate.
  - exists inst. split; [reflexivity|].
    destruct (truthy inst); [reflexivity|]. simpl in H. destruct H as [H|[]]; discriminate.
Qed.

(** Witness for X14. *)
Lemma destroyServerSelect_delete_guard_witness :
  isCurrentServer sample_cfg (JStr "inst-1") = false /\
  exists inst, getInstance sample_cfg "inst-1" (PGetOk (sample_instance "active" "running" "10.0.0.1")) =
    GIRet inst /\ truthy inst = true.
Proof.
  apply (destroyServerSelect_delete_guard sample_cfg sample_registry "inst-1"
           (PGetOk (sample_instance "active" "running" "10.0.0.1")) true None "T1").
  simpl. right. left. reflexivity.
Defined.

(** X15: The [destroy_server] menu changes the registry only when the delete succeeds and polling starts; then every other record is unchanged, an untracked id leaves the registry as it was, and a tracked record keeps its status and its self-destruct timer is cleared. *)
Theorem destroyServerSelect_registry : forall cfg reg id resp replyOk del iso,
  let '(reg', _, reply) := destroyServerSelect cfg reg id resp replyOk del iso in
  match reply with
  | DRPolling =>
      (forall x, x <> id -> InstanceState.getInstance reg' x = InstanceState.getInstance reg x) /\
      match InstanceState.getInstance reg id with
      | None => reg' = reg
      | Some e => exists r, InstanceState.getInstance reg' id = Some r /\
                    obj_get r "status" = obj_get e "status" /\
                    truthy (obj_get r "selfDestructTimer") = false
      end
  | _ => reg' = reg
  end.
Proof.
  intros cfg reg id resp replyOk del iso. unfold destroyServerSelect.
  destruct (isCurrentServer cfg (JStr id)); [reflexivity|].
  destruct (getInstance cfg id resp) as [s|inst]; [reflexivity|].
  destruct (negb (truthy inst)); [reflexivity|].
  destruct (negb replyOk); [reflexivity|].
  destruct del as [[z|]|]; [simpl; destruct z as [|p|p]; try reflexivity; repeat (destruct p as [p|p|]; try reflexivity) | reflexivity |].
  destruct (InstanceState.getInstance reg id) as [e|] eqn:He; [|split; reflexivity].
  destruct (truthy (obj_get e "selfDestructTimer")) eqn:Et.
  - split.
    + intros x Hx. apply update_other; [exact Hx| apply not_in_id_timer].
    + eexists. rewrite (update_same _ _ e _ _ _ He (not_in_id_timer _)). split; [reflexivity|].
      rewrite !updated_get_1. simpl. split; reflexivity.
  - split; [reflexivity|]. exists e. auto.
Qed.

(** An untracked id: the delete succeeds, polling starts, the registry is unchanged. *)
Example destroyServerSelect_untracked :
  destroyServerSelect sample_cfg [] "inst-9"
    (PGetOk (sample_instance "active" "running" "10.0.0.1")) true None "T2" =
  ([], [CGetInstance (JStr "inst-9"); CDeleteInstance (JStr "inst-9")], DRPolling).
Proof. reflexivity. Qed.

(** X16: A button id built as [confirm_restart_], [coin_] or [btn_quick_] followed by any suffix is routed to that action with the suffix as its argument. *)
Theorem button_route_prefixed : forall x,
  button_route ("confirm_restart_" ++ x) = BConfirmRestart x /\
  button_route ("coin_" ++ x) = BCoin x /\
  button_route ("btn_quick_" ++ x) = BQuick x.
Proof. intros x. repeat split; destruct x; reflexivity. Qed.

(* ------------------------------------------------------------------ *)
(** ** Poller bounds *)


Lemma snapshot_tick_late : forall sid e ec resp ok,
  snapshot_maxWaitTime < e -> snapshot_tick sid e ec resp ok = ([STimeout], PollStop).
Proof.
  intros sid e ec resp ok H. unfold snapshot_tick.
  apply Z.ltb_lt in H. rewrite H. reflexivity.
Qed.

Lemma snapshot_run_bound : forall sid k prev ticks,
  snap_spaced prev ticks = true ->
  snapshot_maxWaitTime < prev + 30000 * Z.of_nat (S k) ->
  (fst (fst (snapshot_run sid ticks)) <= S k)%nat /\
  ((S k <= length ticks)%nat -> snd (snapshot_run sid ticks) = PollStop).
Proof.
  intros sid k. induction k as [|k IH]; intros prev ticks Hs Hk;
    destruct ticks as [|t rest]; simpl; try (split; [lia| intros; lia]).
  - apply andb_true_iff in Hs as [H1 _]. apply Z.leb_le in H1.
    rewrite snapshot_tick_late by lia. simpl. split; [lia| reflexivity].
  - apply andb_true_iff in Hs as [H1 Hs]. apply Z.leb_le in H1.
    destruct (snapshot_tick sid _ _ _ _) as [sends out].
    destruct out as [|ms]; [simpl; split; [lia| reflexivity]|].
    destruct rest as [|t' rest']; [simpl; split; [lia| intros; lia]|].
    destruct (IH (st_elapsed t) (t' :: rest') Hs) as [Hn Hout]; [lia|].
    destruct (snapshot_run sid (t' :: rest')) as [[n sends2] out2]. simpl in *.
    split; [lia| intros Hl; apply Hout; lia].
Qed.

Lemma destruction_tick_late : forall cfg reg id e g del ok iso,
  destruction_maxWaitTime < e ->
  destruction_tick cfg reg id e g del ok iso = (reg, [], [FDestroyTimeout], DTimedOut).
Proof.
  intros cfg reg id e g del ok iso H. unfold destruction_tick.
  apply Z.ltb_lt in H. rewrite H. reflexivity.
Qed.

Lemma destruction_run_bound : forall cfg id k prev ticks reg,
  destr_spaced prev ticks = true ->
  destruction_maxWaitTime < prev + 10000 * Z.of_nat (S k) ->
  (snd (fst (destruction_run cfg reg id ticks)) <= S k)%nat /\
  ((S k <= length ticks)%nat -> exists r, snd (destruction_run cfg reg id ticks) = r /\
      match r with DAgain _ => False | _ => True end).
Proof.
  intros cfg id k. induction k as [|k IH]; intros prev ticks reg Hs Hk;
    destruct ticks as [|t rest]; simpl; try (split; [lia| intros; lia]).
  - apply andb_true_iff in Hs as [H1 _]. apply Z.leb_le in H1.
    rewrite destruction_tick_late by lia. simpl. split; [lia| eexists; split; [reflexivity| exact I]].
  - apply andb_true_iff in Hs as [H1 Hs]. apply Z.leb_le in H1.
    destruct (destruction_tick cfg reg id _ _ _ _ _) as [[[reg1 c] s] out].
    destruct out as [|ms|];
      [simpl; split; [lia| eexists; split; [reflexivity| exact I]] | |
       simpl; split; [lia| eexists; split; [reflexivity| exact I]]].
    destruct rest as [|t' rest']; [simpl; split; [lia| intros; lia]|].
    destruct (IH (t_elapsed t) (t' :: rest') reg1 Hs) as [Hn Hout]; [lia|].
    destruct (destruction_run cfg reg1 id (t' :: rest')) as [[reg2 n] out2]. simpl in *.
    split; [lia| intros Hl; apply Hout; lia].
Qed.

(** X17: With ticks spaced as the timers space them (the first after 15 s, then at least 30 s apart), the snapshot poller runs at most 61 ticks, and it has stopped once 61 ticks are available. *)
Theorem snapshot_polling_bounded : forall sid ticks,
  snap_spaced (-15000) ticks = true ->
  (fst (fst (snapshot_run sid ticks)) <= 61)%nat /\
  ((61 <= length ticks)%nat -> snd (snapshot_run sid ticks) = PollStop).
Proof.
  intros sid ticks Hs. apply (snapshot_run_bound sid 60 (-15000) ticks Hs).
  unfold snapshot_maxWaitTime. simpl. lia.
Qed.

(** Witness for X17. *)
Lemma snapshot_polling_bounded_witness :
  (fst (fst (snapshot_run "snap-a" [snap_tick 15000%Z (Some []); snap_tick 45000%Z (Some sample_snapshots)]))
     <= 61)%nat /\
  ((61 <= length [snap_tick 15000%Z (Some []); snap_tick 45000%Z (Some sample_snapshots)])%nat ->
   snd (snapshot_run "snap-a" [snap_tick 15000%Z (Some []); snap_tick 45000%Z (Some sample_snapshots)]) =
     PollStop).
Proof. apply snapshot_polling_bounded. reflexivity. Defined.

(** X18: With ticks spaced as the timers space them (the first after 2 s, then at least 10 s apart), the destruction poller runs at most 91 ticks, and it no longer reschedules once 91 ticks are available. *)
Theorem destruction_polling_bounded : forall cfg reg id ticks,
  destr_spaced (-8000) ticks = true ->
  (snd (fst (destruction_run cfg reg id ticks)) <= 91)%nat /\
  ((91 <= length ticks)%nat -> forall ms, snd (destruction_run cfg reg id ticks) <> DAgain ms).
Proof.
  intros cfg reg id ticks Hs.
  destruct (destruction_run_bound cfg id 90 (-8000) ticks reg Hs) as [Hn Hout];
    [unfold destruction_maxWaitTime; simpl; lia|].
  split; [exact Hn|]. intros Hl ms. destruct (Hout Hl) as [r [-> Hr]]. intros ->. exact Hr.
Qed.

(** Witness for X18. *)
Lemma destruction_polling_bounded_witness :
  (snd (fst (destruction_run sample_cfg sample_registry "inst-1"
      [dtick 2000%Z (PGetOk (sample_instance "active" "running" "10.0.0.1")) (Some (Some 400%Z)) "T1";
       dtick 12000%Z (PGetErr (Some 404%Z)) None "T2"])) <= 91)%nat /\
  ((91 <= length [dtick 2000%Z (PGetOk (sample_instance "active" "running" "10.0.0.1")) (Some (Some 400%Z)) "T1";
                  dtick 12000%Z (PGetErr (Some 404%Z)) None "T2"])%nat ->
   forall ms, snd (destruction_run sample_cfg sample_registry "inst-1"
      [dtick 2000%Z (PGetOk (sample_instance "active" "running" "10.0.0.1")) (Some (Some 400%Z)) "T1";
       dtick 12000%Z (PGetErr (Some 404%Z)) None "T2"]) <> DAgain ms).
Proof. apply destruction_polling_bounded. reflexivity. Defined.
